(** * WhatsApp -> Twilio SIP gateway (index.js): model and properties

    The gateway is one Node.js file.  It registers a request handler
    ([onIncomingRequest]) with the [sip/proxy] module; the handler rewrites
    the SDP body of an INVITE ([rewriteSdp]), retargets the request, and
    forwards it with a response callback ([defaultProxyCallback]) that
    signs and resends the request on a 401/407 challenge.

    The npm modules the file calls ([sdp-transform], [sip], [sip/proxy],
    [sip/digest]) are not part of the repository: they are the fields of
    the interface [SipStack], and the properties of the gateway's own code
    are stated for an arbitrary implementation of it.  What the
    specification says of the digest module is modelled separately
    ([signRequest_spec]).  Console output and calls of [proxy.send] are
    recorded, in order, in a trace of effects. *)

From Stdlib Require Import List String Ascii ZArith NArith Bool Lia DecimalString.
From Stdlib Require DecimalPos.
Import ListNotations.

Local Open Scope string_scope.
Local Open Scope Z_scope.

(** ** JavaScript values *)

Module Js.

(** The values [index.js] inspects: [undefined], numbers and strings.  A
    string is held as its UTF-8 bytes.  [JNum n] is an integral Number with
    [|n| < 10^21] (what [sdp-transform] and the SIP parser produce for a
    decimal token); [JNaN] is the result [parseInt] gives for a non-number. *)
Inductive JsVal : Type :=
| JUndefined
| JNaN
| JNum (n : Z)
| JStr (s : string).

(** [Number.prototype.toString] on an integer: its decimal numeral. *)
Definition Number_toString (n : Z) : string :=
  NilZero.string_of_int (Z.to_int n).

(** [ToString]. *)
Definition ToString (v : JsVal) : string :=
  match v with
  | JUndefined => "undefined"
  | JNaN => "NaN"
  | JNum n => Number_toString n
  | JStr s => s
  end.

(** [ToBoolean]: the test of [if (v)], [v || w] and [v && w]. *)
Definition truthy (v : JsVal) : bool :=
  match v with
  | JUndefined => false
  | JNaN => false
  | JNum n => negb (n =? 0)
  | JStr s => negb (s =? "")%string
  end.

(** [a === b]. *)
Definition strict_eq (a b : JsVal) : bool :=
  match a, b with
  | JUndefined, JUndefined => true
  | JNum n, JNum m => n =? m
  | JStr s, JStr t => (s =? t)%string
  | _, _ => false
  end.

(** SameValueZero, the comparison of [Array.prototype.includes]: as [===]
    except that NaN equals NaN. *)
Definition same_value_zero (a b : JsVal) : bool :=
  match a, b with
  | JNaN, JNaN => true
  | _, _ => strict_eq a b
  end.

(** [xs.includes(v)]. *)
Definition includes (xs : list JsVal) (v : JsVal) : bool :=
  existsb (fun x => same_value_zero x v) xs.

(** [xs.join(sep)]: [undefined] elements print as the empty string. *)
Fixpoint join (sep : string) (xs : list JsVal) : string :=
  match xs with
  | [] => ""
  | [x] => match x with JUndefined => "" | _ => ToString x end
  | x :: rest =>
      (match x with JUndefined => "" | _ => ToString x end) ++ sep ++ join sep rest
  end.

(** *** parseInt

    [parseInt(v)] with no radix: [ToString], skip leading white space, an
    optional sign, an optional [0x]/[0X] prefix (radix 16, else 10), then
    the longest prefix of digits; NaN when that prefix is empty.  The value
    is kept exact here; JavaScript rounds an integer beyond 2^53 to a
    double, which changes no comparison with 0, 8 or 101. *)

Definition byte (c : ascii) : N := N_of_ascii c.

(** TAB, LF, VT, FF, CR, SP. *)
Definition ws1 (a : N) : bool :=
  ((9 <=? a) && (a <=? 13) || (a =? 32))%N.

(** U+00A0. *)
Definition ws2 (a b : N) : bool :=
  ((a =? 194) && (b =? 160))%N.

(** U+1680, U+2000..U+200A, U+2028, U+2029, U+202F, U+205F, U+3000, U+FEFF. *)
Definition ws3 (a b c : N) : bool :=
  ((a =? 225) && (b =? 154) && (c =? 128)
   || (a =? 226) && (b =? 128)
      && ((128 <=? c) && (c <=? 138) || (c =? 168) || (c =? 169) || (c =? 175))
   || (a =? 226) && (b =? 129) && (c =? 159)
   || (a =? 227) && (b =? 128) && (c =? 128)
   || (a =? 239) && (b =? 187) && (c =? 191))%N.

Fixpoint skip_ws (s : string) : string :=
  match s with
  | EmptyString => s
  | String c1 r1 =>
      if ws1 (byte c1) then skip_ws r1
      else
        match r1 with
        | EmptyString => s
        | String c2 r2 =>
            if ws2 (byte c1) (byte c2) then skip_ws r2
            else
              match r2 with
              | EmptyString => s
              | String c3 r3 =>
                  if ws3 (byte c1) (byte c2) (byte c3) then skip_ws r3 else s
              end
        end
  end.

(** The value of [c] as a digit of [radix], if it is one. *)
Definition digit_of (radix : Z) (c : ascii) : option Z :=
  let a := Z.of_N (byte c) in
  let d :=
    if (48 <=? a) && (a <=? 57) then Some (a - 48)
    else if (97 <=? a) && (a <=? 122) then Some (a - 87)
    else if (65 <=? a) && (a <=? 90) then Some (a - 55)
    else None in
  match d with
  | Some v => if v <? radix then Some v else None
  | None => None
  end.

(** The longest prefix of [radix] digits, read as a number; [acc] is [None]
    until a digit has been read. *)
Fixpoint digits (radix : Z) (s : string) (acc : option Z) : option Z :=
  match s with
  | EmptyString => acc
  | String c r =>
      match digit_of radix c with
      | Some d =>
          digits radix r
            (Some (radix * (match acc with Some a => a | None => 0 end) + d))
      | None => acc
      end
  end.

Definition parseInt_string (s : string) : JsVal :=
  let s := skip_ws s in
  let '(sign, s) :=
    match s with
    | String "-" r => (-1, r)
    | String "+" r => (1, r)
    | _ => (1, s)
    end in
  let '(radix, s) :=
    match s with
    | String "0" (String "x" r) => (16, r)
    | String "0" (String "X" r) => (16, r)
    | _ => (10, s)
    end in
  match digits radix s None with
  | Some n => JNum (sign * n)
  | None => JNaN
  end.

(** On a Number the string parsed is its own decimal numeral, so the result
    is the number itself. *)
Definition parseInt (v : JsVal) : JsVal :=
  match v with
  | JNum n => JNum n
  | JNaN => JNaN
  | JUndefined => parseInt_string "undefined"
  | JStr s => parseInt_string s
  end.

(** [Buffer.byteLength(s)] (UTF-8): the number of bytes of [s]. *)
Definition Buffer_byteLength (s : string) : Z :=
  Z.of_nat (String.length s).

(** [s.length]: the number of UTF-16 code units of [s].  A byte that starts
    a character of up to three bytes counts one unit, a byte that starts a
    four-byte character counts two, a continuation byte none. *)
Fixpoint String_length (s : string) : Z :=
  match s with
  | EmptyString => 0
  | String c r =>
      let a := byte c in
      (if (a <? 128)%N then 1
       else if (a <? 192)%N then 0
       else if (a <? 240)%N then 1
       else 2) + String_length r
  end.

(** [s.toLowerCase()], on the letters A-Z.  JavaScript also maps letters
    outside ASCII, which are left alone here; the only use is a comparison
    with ['true'], and no character outside ASCII lower-cases to [t], [r],
    [u] or [e], so the comparison is the same. *)
Definition toLowerCase_char (c : ascii) : ascii :=
  let a := byte c in
  if ((65 <=? a) && (a <=? 90))%N then ascii_of_N (a + 32) else c.

Fixpoint toLowerCase (s : string) : string :=
  match s with
  | EmptyString => EmptyString
  | String c r => String (toLowerCase_char c) (toLowerCase r)
  end.

End Js.

Import Js.

(** ** SDP sessions, as [sdp-transform] hands them to the gateway *)

(** An [a=rtpmap] entry.  A field the parser did not set is [JUndefined]. *)
Record Rtp : Type := mkRtp {
  rtp_payload : JsVal;
  rtp_codec : JsVal;
  rtp_rate : JsVal;
  rtp_encoding : JsVal
}.

(** An [a=fmtp] entry. *)
Record Fmtp : Type := mkFmtp {
  fmtp_payload : JsVal;
  fmtp_config : JsVal
}.

(** The [a=rtcp] attribute. *)
Record Rtcp : Type := mkRtcp {
  rtcp_port : JsVal;
  rtcp_netType : JsVal;
  rtcp_ipVer : JsVal;
  rtcp_address : JsVal
}.

(** One media description.  The parser creates each one as
    [{rtp: [], fmtp: []}], so [rtp] is always an array; [index.js] itself
    allows for a missing [fmtp] ([media.fmtp || []]), which is [None] here.
    [rtcp] is [None] when the property is [undefined].  [media_rest] holds
    the properties the gateway neither reads nor writes (port, protocol,
    connection, direction, ...). *)
Record Media : Type := mkMedia {
  type : JsVal;
  payloads : JsVal;
  rtp : list Rtp;
  fmtp : option (list Fmtp);
  rtcp : option Rtcp;
  media_rest : list (string * JsVal)
}.

Record Session : Type := mkSession {
  media : list Media;
  session_rest : list (string * JsVal)
}.

(** ** SIP messages, as the [sip] module hands them to the gateway *)

(** A parsed To/From/Contact value: [{name, uri, params}]. *)
Record NameAddr : Type := mkNameAddr {
  na_name : JsVal;
  na_uri : JsVal;
  na_params : option (list (string * string))
}.

(** A digest challenge ([WWW-Authenticate] / [Proxy-Authenticate]). *)
Record Challenge : Type := mkChallenge {
  ch_realm : option string;
  ch_nonce : option string;
  ch_algorithm : option string;
  ch_qop : option string
}.

(** A digest credential ([Authorization] / [Proxy-Authorization]). *)
Record Authorization : Type := mkAuthorization {
  au_username : string;
  au_realm : string;
  au_nonce : string;
  au_uri : string;
  au_nc : Z;
  au_cnonce : string;
  au_qop : option string;
  au_algorithm : string;
  au_response : string
}.

(** [msg.headers].  [h_other] holds the headers the gateway neither reads
    nor writes (via, call-id, cseq, ...). *)
Record Headers : Type := mkHeaders {
  h_from : option NameAddr;
  h_to : option NameAddr;
  h_contact : option (list NameAddr);
  h_content_length : JsVal;
  h_www_authenticate : option Challenge;
  h_proxy_authenticate : option Challenge;
  h_authorization : option Authorization;
  h_proxy_authorization : option Authorization;
  h_other : list (string * string)
}.

Record Request : Type := mkRequest {
  method : string;
  uri : JsVal;
  headers : Headers;
  content : option string
}.

Record Response : Type := mkResponse {
  status : Z;
  reason : string;
  rs_headers : Headers;
  rs_content : option string
}.

Inductive Message : Type :=
| MRequest (rq : Request)
| MResponse (rs : Response).

(** ** Configuration (index.js, lines 19-35) *)

(** The environment variables the request path reads, after their
    [|| ''] defaults; [PUBLIC_IP] is read raw at its use. *)
Record Config : Type := mkConfig {
  META_USER : string;
  TWILIO_USER : string;
  TWILIO_PASS : string;
  TWILIO_DOMAIN : string;
  TWILIO_DEST : string;
  PUBLIC_IP : option string
}.

Record Credentials : Type := mkCredentials {
  user : string;
  realm : string;
  password : string
}.

Definition credentialsTwilio (cfg : Config) : Credentials :=
  {| user := TWILIO_USER cfg;
     realm := "sip.twilio.com";
     password := TWILIO_PASS cfg |}.

(** Line 21: [(process.env.USE_TLS || '').toLowerCase() === 'true'], as a
    function of the variable's value ([None] when it is not set). *)
Definition USE_TLS (env_USE_TLS : option string) : bool :=
  (toLowerCase (match env_USE_TLS with
                | Some v => if (v =? "")%string then "" else v
                | None => ""
                end) =? "true")%string.

(** The digest session object.  [sessionTwilio] starts as [{}]. *)
Record AuthSession : Type := mkAuthSession {
  as_username : option string;
  as_realm : option string;
  as_password : option string;
  as_nonce : option string;
  as_nc : Z;
  as_cnonce : option string;
  as_algorithm : option string;
  as_qop : option string
}.

Definition sessionTwilio_initial : AuthSession :=
  {| as_username := None; as_realm := None; as_password := None;
     as_nonce := None; as_nc := 0; as_cnonce := None;
     as_algorithm := None; as_qop := None |}.

(** ** Effects, exceptions and the gateway monad *)

(** A thrown JavaScript value. *)
Definition Exn : Type := string.

Inductive result (A : Type) : Type :=
| Ok (a : A)
| Throw (e : Exn).
Arguments Ok {A} a.
Arguments Throw {A} e.

(** The one callback the gateway ever passes to [proxy.send]. *)
Inductive Callback : Type :=
| defaultProxyCallback_closure.

(** What the gateway does to the outside, in order.  [proxy_send] records a
    call of [proxy.send] with its arguments. *)
Inductive Effect : Type :=
| console_log (msg : string)
| console_warn (msg : string) (err : Exn)
| console_error (msg : string) (err : Exn)
| proxy_send (msg : Message) (callback : option Callback).

Definition Trace : Type := list Effect.

(** The state of the random source the digest code draws client nonces
    from. *)
Definition Rng : Type := N.

(** The mutable objects a request's processing touches: the module-level
    [sessionTwilio], the request object [rq] (shared by the handler, its
    [catch] block and the callback's closure), and the random source. *)
Record Store : Type := mkStore {
  sessionTwilio : AuthSession;
  rq : Request;
  rng : Rng
}.

(** A computation over a state [S]: the effects it performed, the state it
    left, and its value or the exception it threw.  Mutations made before a
    [throw] stay. *)
Definition M (S A : Type) : Type := S -> Trace * S * result A.

Definition ret {S A} (a : A) : M S A :=
  fun s => ([], s, Ok a).

Definition bind {S A B} (m : M S A) (k : A -> M S B) : M S B :=
  fun s =>
    match m s with
    | (t, s1, Ok a) =>
        match k a s1 with
        | (t', s2, r) => ((t ++ t')%list, s2, r)
        end
    | (t, s1, Throw e) => (t, s1, Throw e)
    end.

(** [try { m } catch (err) { h err }]. *)
Definition try_catch {S A} (m : M S A) (h : Exn -> M S A) : M S A :=
  fun s =>
    match m s with
    | (t, s1, Ok a) => (t, s1, Ok a)
    | (t, s1, Throw e) =>
        match h e s1 with
        | (t', s2, r) => ((t ++ t')%list, s2, r)
        end
    end.

Definition emit {S} (e : Effect) : M S unit :=
  fun s => ([e], s, Ok tt).

Definition lift_result {S A} (r : result A) : M S A :=
  fun s => ([], s, r).

Definition get {S} : M S S :=
  fun s => ([], s, Ok s).

Definition modify {S} (f : S -> S) : M S unit :=
  fun s => ([], f s, Ok tt).

Declare Scope gw_scope.
Delimit Scope gw_scope with gw.
Notation "x <- m ;; k" := (bind m (fun x => k))
  (at level 61, m at next level, right associativity) : gw_scope.
Notation "m ;; k" := (bind m (fun _ => k))
  (at level 61, right associativity) : gw_scope.
Local Open Scope gw_scope.

(** ** The npm modules the gateway calls *)

Class SipStack : Type := {
  (** [sdpTransform.parse] and [sdpTransform.write]. *)
  sdp_parse : string -> result Session;
  sdp_write : Session -> result string;
  (** [sip.makeResponse(rq, status, reason)]. *)
  sip_makeResponse : Request -> Z -> string -> Response;
  (** [digest.signRequest(session, rq, rs, credentials)]: it updates the
      session and the request in place.  Its return value is not used. *)
  digest_signRequest :
    Rng -> AuthSession -> Request -> Response -> Credentials ->
    result (Rng * AuthSession * Request);
  (** Whether [proxy.send(msg, ...)] throws, and what. *)
  proxy_send_throws : Message -> option Exn
}.

(** ** The gateway (index.js, lines 55-135) *)

Section Gateway.

Context {stack : SipStack}.
Variable cfg : Config.

(** *** rewriteSdp (lines 56-85) *)

Definition allowedPayloads : list JsVal := [JNum 0; JNum 8; JNum 101].

Definition telephone_event_rtp : Rtp :=
  {| rtp_payload := JNum 101; rtp_codec := JStr "telephone-event";
     rtp_rate := JNum 8000; rtp_encoding := JUndefined |}.

Definition telephone_event_fmtp : Fmtp :=
  {| fmtp_payload := JNum 101; fmtp_config := JStr "0-16" |}.

(** [r => allowedPayloads.includes(r.payload)] *)
Definition rtp_allowed (r : Rtp) : bool :=
  includes allowedPayloads (rtp_payload r).

(** [r => r.payload === 101] *)
Definition rtp_is_101 (r : Rtp) : bool :=
  strict_eq (rtp_payload r) (JNum 101).

(** [f => allowedPayloads.includes(parseInt(f.payload))] *)
Definition fmtp_allowed (f : Fmtp) : bool :=
  includes allowedPayloads (parseInt (fmtp_payload f)).

(** [f => parseInt(f.payload) === 101] *)
Definition fmtp_is_101 (f : Fmtp) : bool :=
  strict_eq (parseInt (fmtp_payload f)) (JNum 101).

(** [xs.push(x)] when [xs.find(p)] found nothing.  The elements are objects,
    so [!xs.find(p)] holds exactly when no element satisfies [p]. *)
Definition push_unless_found {A} (p : A -> bool) (x : A) (xs : list A) : list A :=
  match find p xs with
  | Some _ => xs
  | None => (xs ++ [x])%list
  end.

(** The function mapped over [parsed.media] (lines 59-79). *)
Definition rewriteMedia (m : Media) : Media :=
  if strict_eq (type m) (JStr "audio") then
    {| type := type m;
       payloads := JStr (join " " allowedPayloads);
       rtp := push_unless_found rtp_is_101 telephone_event_rtp
                (filter rtp_allowed (rtp m));
       fmtp := Some (push_unless_found fmtp_is_101 telephone_event_fmtp
                       (filter fmtp_allowed
                          (match fmtp m with Some fs => fs | None => [] end)));
       rtcp := None;
       media_rest := media_rest m |}
  else m.

(** The session handed to [sdpTransform.write]. *)
Definition rewriteSession (parsed : Session) : Session :=
  {| media := map rewriteMedia (media parsed);
     session_rest := session_rest parsed |}.

(** What lines 62-76 have established of a media description once they
    have run: if its type is 'audio', the payload list is "0 8 101", every
    rtp entry passes the rtp filter and one passes the rtp [find], [fmtp]
    is an array whose entries pass the fmtp filter and one passes the fmtp
    [find], and there is no [rtcp]. *)
Definition negotiated (m : Media) : bool :=
  if strict_eq (type m) (JStr "audio") then
    strict_eq (payloads m) (JStr (join " " allowedPayloads))
    && forallb rtp_allowed (rtp m) && existsb rtp_is_101 (rtp m)
    && match fmtp m with
       | Some fs => forallb fmtp_allowed fs && existsb fmtp_is_101 fs
       | None => false
       end
    && match rtcp m with
       | None => true
       | Some _ => false
       end
  else true.

Definition rewriteSdp {S : Type} (sdp : string) : M S string :=
  try_catch
    (parsed <- lift_result (sdp_parse sdp) ;;
     lift_result (sdp_write (rewriteSession parsed)))
    (fun err =>
       emit (console_warn "[gateway] Failed to parse SDP:" err) ;;
       ret sdp).

(** *** onIncomingRequest (lines 88-135) *)

Definition get_rq : M Store Request :=
  st <- get ;; ret (rq st).

(** The store after an assignment to the request object. *)
Definition with_rq (st : Store) (r : Request) : Store :=
  {| sessionTwilio := sessionTwilio st; rq := r; rng := rng st |}.

Definition set_rq (f : Request -> Request) : M Store unit :=
  modify (fun st => with_rq st (f (rq st))).

Definition set_headers (f : Headers -> Headers) (r : Request) : Request :=
  {| method := method r; uri := uri r; headers := f (headers r);
     content := content r |}.

(** [rq.content = c] *)
Definition set_content (c : string) (r : Request) : Request :=
  {| method := method r; uri := uri r; headers := headers r;
     content := Some c |}.

(** [rq.uri = u] *)
Definition set_uri (u : string) (r : Request) : Request :=
  {| method := method r; uri := JStr u; headers := headers r;
     content := content r |}.

(** [rq.headers['content-length'] = v] *)
Definition set_content_length (v : JsVal) (h : Headers) : Headers :=
  {| h_from := h_from h; h_to := h_to h; h_contact := h_contact h;
     h_content_length := v;
     h_www_authenticate := h_www_authenticate h;
     h_proxy_authenticate := h_proxy_authenticate h;
     h_authorization := h_authorization h;
     h_proxy_authorization := h_proxy_authorization h;
     h_other := h_other h |}.

(** Lines 102-106: [rq.headers.to.uri = u] on an existing To header,
    [rq.headers.to = { uri: u }] otherwise. *)
Definition set_to_uri (u : string) (h : Headers) : Headers :=
  {| h_from := h_from h;
     h_to :=
       Some (match h_to h with
             | Some t => {| na_name := na_name t; na_uri := JStr u;
                            na_params := na_params t |}
             | None => {| na_name := JUndefined; na_uri := JStr u;
                          na_params := None |}
             end);
     h_contact := h_contact h;
     h_content_length := h_content_length h;
     h_www_authenticate := h_www_authenticate h;
     h_proxy_authenticate := h_proxy_authenticate h;
     h_authorization := h_authorization h;
     h_proxy_authorization := h_proxy_authorization h;
     h_other := h_other h |}.

(** [rq.headers.contact = [{ uri: u }]] *)
Definition set_contact (u : string) (h : Headers) : Headers :=
  {| h_from := h_from h; h_to := h_to h;
     h_contact := Some [ {| na_name := JUndefined; na_uri := JStr u;
                            na_params := None |} ];
     h_content_length := h_content_length h;
     h_www_authenticate := h_www_authenticate h;
     h_proxy_authenticate := h_proxy_authenticate h;
     h_authorization := h_authorization h;
     h_proxy_authorization := h_proxy_authorization h;
     h_other := h_other h |}.

(** [proxy.send(msg, callback)]: the call is recorded, then it returns or
    throws as the library decides. *)
Definition proxy_send_call (msg : Message) (cb : option Callback) : M Store unit :=
  emit (proxy_send msg cb) ;;
  match proxy_send_throws msg with
  | Some e => lift_result (Throw e)
  | None => ret tt
  end.

(** [`sip:${TWILIO_DEST}@${TWILIO_DOMAIN}`] *)
Definition destUri : string :=
  "sip:" ++ TWILIO_DEST cfg ++ "@" ++ TWILIO_DOMAIN cfg.

(** [`sip:${META_USER}@${process.env.PUBLIC_IP || 'example.com'}`] *)
Definition contactUri : string :=
  "sip:" ++ META_USER cfg ++ "@"
  ++ match PUBLIC_IP cfg with
     | Some ip => if (ip =? "")%string then "example.com" else ip
     | None => "example.com"
     end.

(** [rq.method === 'ACK' || ... || rq.method === 'UPDATE'] *)
Definition in_dialog_method (m : string) : bool :=
  ((m =? "ACK") || (m =? "CANCEL") || (m =? "BYE") || (m =? "PRACK")
   || (m =? "UPDATE"))%string.

(** Lines 93-97. *)
Definition rewrite_body : M Store unit :=
  r <- get_rq ;;
  match content r with
  | Some c =>
      if negb (c =? "")%string then
        newSdp <- rewriteSdp c ;;
        set_rq (set_content newSdp) ;;
        set_rq (set_headers
                  (set_content_length
                     (JStr (Number_toString (Buffer_byteLength newSdp)))))
      else ret tt
  | None => ret tt
  end.

(** The handler registered with [proxy.start].  The store's [rq] is the
    request object the handler was called with. *)
Definition onIncomingRequest : M Store unit :=
  try_catch
    (r <- get_rq ;;
     if (method r =? "INVITE")%string then
       emit (console_log
               ("[gateway] Received INVITE from "
                ++ ToString (match h_from (headers r) with
                             | Some f => na_uri f
                             | None => JUndefined
                             end))) ;;
       rewrite_body ;;
       set_rq (set_uri destUri) ;;
       set_rq (set_headers (set_to_uri destUri)) ;;
       set_rq (set_headers (set_contact contactUri)) ;;
       r' <- get_rq ;;
       proxy_send_call (MRequest r') (Some defaultProxyCallback_closure)
     else if in_dialog_method (method r) then
       proxy_send_call (MRequest r) None
     else
       proxy_send_call (MResponse (sip_makeResponse r 405 "Method Not Allowed")) None)
    (fun err =>
       emit (console_error "[gateway] Error processing request:" err) ;;
       r <- get_rq ;;
       proxy_send_call (MResponse (sip_makeResponse r 500 "Server Error")) None).

(** *** defaultProxyCallback (lines 112-123)

    The library calls it with each response to the forwarded INVITE, after
    [onIncomingRequest] has returned: the handler's [try]/[catch] is no
    longer on the stack, so what the callback throws is not caught by it. *)

(** [digest.signRequest(sessionTwilio, rq, rs, credentialsTwilio)].  When
    the library throws, the store is left as it was. *)
Definition signRequest (rs : Response) : M Store unit :=
  fun st =>
    match digest_signRequest (rng st) (sessionTwilio st) (rq st) rs
            (credentialsTwilio cfg) with
    | Ok (g, session, r) =>
        ([], {| sessionTwilio := session; rq := r; rng := g |}, Ok tt)
    | Throw e => ([], st, Throw e)
    end.

(** [rs.status === 401 || rs.status === 407] *)
Definition is_challenge (rs : Response) : bool :=
  (status rs =? 401) || (status rs =? 407).

Definition defaultProxyCallback (rs : Response) : M Store unit :=
  if is_challenge rs then
    emit (console_log "[gateway] Received challenge from Twilio, signing request...") ;;
    signRequest rs ;;
    r <- get_rq ;;
    proxy_send_call (MRequest r) None
  else
    proxy_send_call (MResponse rs) None.

(** The callback run on the responses the library hands to it, in their
    order of arrival, up to the first exception that leaves it.  (Line 118
    resends without a callback; which later responses reach this callback
    is the library's matter, so the sequence is arbitrary here.) *)
Fixpoint deliver (rss : list Response) : M Store unit :=
  match rss with
  | [] => ret tt
  | rs :: rest => defaultProxyCallback rs ;; deliver rest
  end.

End Gateway.

(** ** Reading a trace *)

(** The requests passed to [proxy.send], in order. *)
Fixpoint sent_requests (t : Trace) : list Request :=
  match t with
  | [] => []
  | proxy_send (MRequest r) _ :: rest => r :: sent_requests rest
  | _ :: rest => sent_requests rest
  end.

(** The responses passed to [proxy.send], in order. *)
Fixpoint sent_responses (t : Trace) : list Response :=
  match t with
  | [] => []
  | proxy_send (MResponse r) _ :: rest => r :: sent_responses rest
  | _ :: rest => sent_responses rest
  end.

(** Lines 98-109 as one step: the three assignments the INVITE branch makes
    between the body block and [proxy.send], in their order. *)
Definition retarget (cfg : Config) (r : Request) : Request :=
  set_headers (set_contact (contactUri cfg))
    (set_headers (set_to_uri (destUri cfg)) (set_uri (destUri cfg) r)).

(** The messages passed to [proxy.send] together with a callback. *)
Fixpoint sent_with_callback (t : Trace) : list Message :=
  match t with
  | [] => []
  | proxy_send m (Some _) :: rest => m :: sent_with_callback rest
  | _ :: rest => sent_with_callback rest
  end.

(** ** The digest transition of the Auth Relay State Machine *)

Section DigestSpec.

(** The keyed-hash primitive ([hash algorithm text]) and the source of
    client nonces. *)
Variable hash : string -> string -> string.
Variable gen_cnonce : Rng -> string * Rng.

Definition opt_string (o : option string) : string :=
  match o with Some s => s | None => "" end.

(** The header a challenge arrives in: [Proxy-Authenticate] on a 407,
    [WWW-Authenticate] otherwise. *)
Definition challenge_of (rs : Response) : option Challenge :=
  if status rs =? 407 then h_proxy_authenticate (rs_headers rs)
  else h_www_authenticate (rs_headers rs).

(** Step 2: the nonce bookkeeping.  Returns the nonce-count, the client
    nonce and the state of the random source. *)
Definition next_nonce_state (g : Rng) (session : AuthSession) (nonce : string)
  : Z * option string * Rng :=
  match as_nonce session with
  | Some stored =>
      if (stored =? nonce)%string then (as_nc session + 1, as_cnonce session, g)
      else let '(c, g') := gen_cnonce g in (1, Some c, g')
  | None => let '(c, g') := gen_cnonce g in (1, Some c, g')
  end.

(** Step 4: the credential goes into [Proxy-Authorization] on a 407 and
    into [Authorization] otherwise. *)
Definition attach_authorization (proxy : bool) (a : Authorization) (h : Headers)
  : Headers :=
  {| h_from := h_from h; h_to := h_to h; h_contact := h_contact h;
     h_content_length := h_content_length h;
     h_www_authenticate := h_www_authenticate h;
     h_proxy_authenticate := h_proxy_authenticate h;
     h_authorization := if proxy then h_authorization h else Some a;
     h_proxy_authorization := if proxy then Some a else h_proxy_authorization h;
     h_other := h_other h |}.

(** Modelled from the spec: [digest.signRequest] belongs to the [sip] npm
    module, which is not among the repository's files.  This follows
    section 4.3 of the specification: (1) read realm, nonce, algorithm and
    quality-of-protection from the challenge, failing when realm or nonce is
    missing; (2) on the stored nonce increment the nonce-count, on a new one
    adopt it, reset the count to 1 and draw a fresh client nonce;
    (3) HA1 = hash(username:realm:password), HA2 = hash(method:uri),
    response = hash(HA1:nonce:nonce-count:client-nonce:qop:HA2), with the
    advertised algorithm (MD5 when none is advertised); (4) attach the
    credential to the request. *)
Definition signRequest_spec (g : Rng) (session : AuthSession) (r : Request)
    (rs : Response) (creds : Credentials)
  : result (Rng * AuthSession * Request) :=
  match challenge_of rs with
  | None => Throw "no digest challenge in the response"
  | Some ch =>
      match ch_realm ch, ch_nonce ch with
      | Some rlm, Some nonce =>
          let '(nc, cnonce, g') := next_nonce_state g session nonce in
          let algorithm := match ch_algorithm ch with Some a => a | None => "MD5" end in
          let ha1 := hash algorithm (user creds ++ ":" ++ rlm ++ ":" ++ password creds) in
          let ha2 := hash algorithm (method r ++ ":" ++ ToString (uri r)) in
          let response :=
            hash algorithm
              (ha1 ++ ":" ++ nonce ++ ":" ++ Number_toString nc ++ ":"
               ++ opt_string cnonce ++ ":" ++ opt_string (ch_qop ch) ++ ":" ++ ha2) in
          let session' :=
            {| as_username := Some (user creds); as_realm := Some rlm;
               as_password := Some (password creds); as_nonce := Some nonce;
               as_nc := nc; as_cnonce := cnonce;
               as_algorithm := Some algorithm; as_qop := ch_qop ch |} in
          let credential :=
            {| au_username := user creds; au_realm := rlm; au_nonce := nonce;
               au_uri := ToString (uri r); au_nc := nc;
               au_cnonce := opt_string cnonce; au_qop := ch_qop ch;
               au_algorithm := algorithm; au_response := response |} in
          Ok (g', session',
              {| method := method r; uri := uri r;
                 headers := attach_authorization (status rs =? 407) credential (headers r);
                 content := content r |})
      | _, _ => Throw "digest challenge without realm or nonce"
      end
  end.

(** The stack [base] with its digest module replaced by the transition
    above. *)
Definition with_spec_digest (base : SipStack) : SipStack :=
  {| sdp_parse := @sdp_parse base;
     sdp_write := @sdp_write base;
     sip_makeResponse := @sip_makeResponse base;
     digest_signRequest := signRequest_spec;
     proxy_send_throws := @proxy_send_throws base |}.

End DigestSpec.

(** ** A table-driven stack and sample messages

    Used to run the gateway on concrete inputs: the SDP module is a table
    over the bodies below, each row being what [sdp-transform] does with
    that body or session; responses are built from the request's own
    headers, the hash is symbolic, and [proxy.send] never throws.  A body
    or session without a row is outside the table: the table throws there,
    which [sdp-transform] itself does not do on a string, and nothing
    below is run on one.  [strict_stack] is the same stack with a parser
    that does reject the truncated body; it serves to run the [catch]
    block of [rewriteSdp]. *)

Module Sample.

Definition crlf : string :=
  String (ascii_of_nat 13) (String (ascii_of_nat 10) "").

Fixpoint sdp_lines (ls : list string) : string :=
  match ls with
  | [] => ""
  | l :: rest => l ++ crlf ++ sdp_lines rest
  end.

(** An offer with Opus, PCMU and telephone-event (fmtp [0-15]), and an
    [a=rtcp] line. *)
Definition offer_sdp : string :=
  sdp_lines
    [ "v=0"; "o=- 20518 0 IN IP4 203.0.113.1"; "s=-";
      "c=IN IP4 203.0.113.1"; "t=0 0";
      "m=audio 54400 RTP/AVP 111 0 101";
      "a=rtpmap:111 opus/48000/2";
      "a=rtpmap:0 PCMU/8000";
      "a=rtpmap:101 telephone-event/8000";
      "a=fmtp:111 minptime=10;useinbandfec=1";
      "a=fmtp:101 0-15";
      "a=rtcp:54401 IN IP4 203.0.113.1" ].

Definition session_fields : list (string * JsVal) :=
  [ ("version", JNum 0); ("origin", JStr "- 20518 0 IN IP4 203.0.113.1");
    ("name", JStr "-"); ("connection", JStr "IN IP4 203.0.113.1");
    ("timing", JStr "0 0") ].

Definition offer_audio : Media :=
  {| type := JStr "audio";
     payloads := JStr "111 0 101";
     rtp := [ mkRtp (JNum 111) (JStr "opus") (JNum 48000) (JNum 2);
              mkRtp (JNum 0) (JStr "PCMU") (JNum 8000) JUndefined;
              mkRtp (JNum 101) (JStr "telephone-event") (JNum 8000) JUndefined ];
     fmtp := Some [ mkFmtp (JNum 111) (JStr "minptime=10;useinbandfec=1");
                    mkFmtp (JNum 101) (JStr "0-15") ];
     rtcp := Some (mkRtcp (JNum 54401) (JStr "IN") (JNum 4) (JStr "203.0.113.1"));
     media_rest := [ ("port", JNum 54400); ("protocol", JStr "RTP/AVP") ] |}.

Definition offer_session : Session :=
  {| media := [ offer_audio ]; session_rest := session_fields |}.

(** The offer as the gateway rewrites it. *)
Definition rewritten_sdp : string :=
  sdp_lines
    [ "v=0"; "o=- 20518 0 IN IP4 203.0.113.1"; "s=-";
      "c=IN IP4 203.0.113.1"; "t=0 0";
      "m=audio 54400 RTP/AVP 0 8 101";
      "a=rtpmap:0 PCMU/8000";
      "a=rtpmap:101 telephone-event/8000";
      "a=fmtp:101 0-15" ].

(** A body cut off in the middle of its media line. *)
Definition truncated_sdp : string :=
  sdp_lines [ "v=0"; "o=- 20518 0 IN IP4 203.0.113.1"; "s=-" ] ++ "m=aud".

(** What the parser makes of it: the three complete lines, and a media
    description with nothing but its empty [rtp] and [fmtp], as the media
    line does not match the grammar. *)
Definition truncated_session : Session :=
  {| media := [ {| type := JUndefined; payloads := JUndefined; rtp := [];
                   fmtp := Some []; rtcp := None; media_rest := [] |} ];
     session_rest := [ ("version", JNum 0);
                       ("origin", JStr "- 20518 0 IN IP4 203.0.113.1");
                       ("name", JStr "-") ] |}.

(** What the writer prints for that session: the media line is printed
    from the missing type, port and protocol. *)
Definition truncated_rewritten : string :=
  sdp_lines [ "v=0"; "o=- 20518 0 IN IP4 203.0.113.1"; "s=-";
              "m=undefined NaN undefined " ].

Definition JsVal_eq_dec (a b : JsVal) : {a = b} + {a <> b}.
Proof. decide equality; [apply Z.eq_dec | apply string_dec]. Defined.

Definition Rtp_eq_dec (a b : Rtp) : {a = b} + {a <> b}.
Proof. decide equality; apply JsVal_eq_dec. Defined.

Definition Fmtp_eq_dec (a b : Fmtp) : {a = b} + {a <> b}.
Proof. decide equality; apply JsVal_eq_dec. Defined.

Definition Rtcp_eq_dec (a b : Rtcp) : {a = b} + {a <> b}.
Proof. decide equality; apply JsVal_eq_dec. Defined.

Definition field_eq_dec (a b : string * JsVal) : {a = b} + {a <> b}.
Proof. decide equality; [apply JsVal_eq_dec | apply string_dec]. Defined.

Definition Media_eq_dec (a b : Media) : {a = b} + {a <> b}.
Proof.
  decide equality.
  - apply (list_eq_dec field_eq_dec).
  - decide equality. apply Rtcp_eq_dec.
  - decide equality. apply (list_eq_dec Fmtp_eq_dec).
  - apply (list_eq_dec Rtp_eq_dec).
  - apply JsVal_eq_dec.
  - apply JsVal_eq_dec.
Defined.

Definition Session_eq_dec (a b : Session) : {a = b} + {a <> b}.
Proof.
  decide equality.
  - apply (list_eq_dec field_eq_dec).
  - apply (list_eq_dec Media_eq_dec).
Defined.

Definition parse_table (sdp : string) : result Session :=
  if (sdp =? offer_sdp)%string then Ok offer_session
  else if (sdp =? rewritten_sdp)%string then Ok (rewriteSession offer_session)
  else if (sdp =? truncated_sdp)%string then Ok truncated_session
  else if (sdp =? truncated_rewritten)%string then Ok truncated_session
  else Throw "SDP parse error".

Definition write_table (s : Session) : result string :=
  if Session_eq_dec s (rewriteSession offer_session) then Ok rewritten_sdp
  else if Session_eq_dec s truncated_session then Ok truncated_rewritten
  else Throw "SDP write error".

(** A parser that accepts the two complete bodies and rejects everything
    else, the truncated body included. *)
Definition strict_parse_table (sdp : string) : result Session :=
  if (sdp =? offer_sdp)%string then Ok offer_session
  else if (sdp =? rewritten_sdp)%string then Ok (rewriteSession offer_session)
  else Throw "SDP parse error".

(** [sip.makeResponse]: status, reason, and the request's To and From. *)
Definition makeResponse (r : Request) (st : Z) (rsn : string) : Response :=
  {| status := st; reason := rsn;
     rs_headers :=
       {| h_from := h_from (headers r); h_to := h_to (headers r);
          h_contact := None; h_content_length := JUndefined;
          h_www_authenticate := None; h_proxy_authenticate := None;
          h_authorization := None; h_proxy_authorization := None;
          h_other := h_other (headers r) |};
     rs_content := None |}.

Definition symbolic_hash (algorithm text : string) : string :=
  algorithm ++ "(" ++ text ++ ")".

Definition counter_cnonce (g : Rng) : string * Rng :=
  ("cnonce-" ++ NilZero.string_of_uint (N.to_uint g), N.succ g).

#[local] Instance stack : SipStack :=
  {| sdp_parse := parse_table;
     sdp_write := write_table;
     sip_makeResponse := makeResponse;
     digest_signRequest := signRequest_spec symbolic_hash counter_cnonce;
     proxy_send_throws := fun _ => None |}.

Definition strict_stack : SipStack :=
  {| sdp_parse := strict_parse_table;
     sdp_write := write_table;
     sip_makeResponse := makeResponse;
     digest_signRequest := signRequest_spec symbolic_hash counter_cnonce;
     proxy_send_throws := fun _ => None |}.

Definition cfg : Config :=
  {| META_USER := "1234567890";
     TWILIO_USER := "u";
     TWILIO_PASS := "p";
     TWILIO_DOMAIN := "nonocard.sip.twilio.com";
     TWILIO_DEST := "+5215541655565";
     PUBLIC_IP := None |}.

Definition caller : NameAddr :=
  {| na_name := JStr "Caller"; na_uri := JStr "sip:+15550100@wa.meta.vc";
     na_params := Some [ ("tag", "a73kszlfl") ] |}.

Definition callee : NameAddr :=
  {| na_name := JUndefined; na_uri := JStr "sip:+15550199@gateway.example.net";
     na_params := None |}.

Definition request_headers (len : JsVal) : Headers :=
  {| h_from := Some caller; h_to := Some callee; h_contact := None;
     h_content_length := len;
     h_www_authenticate := None; h_proxy_authenticate := None;
     h_authorization := None; h_proxy_authorization := None;
     h_other := [ ("call-id", "f81d4fae-7dec"); ("cseq", "1 INVITE") ] |}.

Definition request (m : string) (body : option string) : Request :=
  {| method := m; uri := JStr "sip:+15550199@gateway.example.net";
     headers := request_headers
                  (match body with
                   | Some b => JNum (Buffer_byteLength b)
                   | None => JNum 0
                   end);
     content := body |}.

Definition invite : Request := request "INVITE" (Some offer_sdp).
Definition bye : Request := request "BYE" None.
Definition options : Request := request "OPTIONS" None.

Definition store (r : Request) : Store :=
  {| sessionTwilio := sessionTwilio_initial; rq := r; rng := 0%N |}.

Definition response_headers (www : option Challenge) : Headers :=
  {| h_from := Some caller; h_to := Some callee; h_contact := None;
     h_content_length := JNum 0;
     h_www_authenticate := www; h_proxy_authenticate := None;
     h_authorization := None; h_proxy_authorization := None;
     h_other := [ ("call-id", "f81d4fae-7dec"); ("cseq", "1 INVITE") ] |}.

(** [401 Unauthorized] with realm [sip.twilio.com], nonce [abc123], qop
    [auth]. *)
Definition challenge_401 : Response :=
  {| status := 401; reason := "Unauthorized";
     rs_headers :=
       response_headers
         (Some {| ch_realm := Some "sip.twilio.com"; ch_nonce := Some "abc123";
                  ch_algorithm := None; ch_qop := Some "auth" |});
     rs_content := None |}.

(** [401 Unauthorized] whose challenge carries a realm but no nonce. *)
Definition challenge_without_nonce : Response :=
  {| status := 401; reason := "Unauthorized";
     rs_headers :=
       response_headers
         (Some {| ch_realm := Some "sip.twilio.com"; ch_nonce := None;
                  ch_algorithm := None; ch_qop := Some "auth" |});
     rs_content := None |}.

(** [180 Ringing] and [200 OK] from downstream. *)
Definition ringing_180 : Response :=
  {| status := 180; reason := "Ringing";
     rs_headers := response_headers None; rs_content := None |}.

Definition ok_200 : Response :=
  {| status := 200; reason := "OK";
     rs_headers := response_headers None; rs_content := Some rewritten_sdp |}.

(** An INVITE with the truncated body. *)
Definition invite_truncated : Request := request "INVITE" (Some truncated_sdp).

(** The store once [onIncomingRequest] has forwarded the INVITE: what the
    callback's closure sees. *)
Definition forwarded : Store :=
  snd (fst (onIncomingRequest cfg (store invite))).

End Sample.

(** The components of a run. *)
Definition trace_of {S A} (x : Trace * S * result A) : Trace := fst (fst x).
Definition store_of {S A} (x : Trace * S * result A) : S := snd (fst x).
Definition result_of {S A} (x : Trace * S * result A) : result A := snd x.

(** * Properties *)

(** ** JavaScript comparisons *)

Lemma strict_eq_JNum (v : JsVal) (n : Z) :
  strict_eq v (JNum n) = true <-> v = JNum n.
Proof.
  destruct v as [| |m|s]; simpl; split; intro H; try discriminate.
  - apply Z.eqb_eq in H. now subst.
  - injection H as ->. apply Z.eqb_refl.
Qed.

Lemma strict_eq_JStr (v : JsVal) (s : string) :
  strict_eq v (JStr s) = true <-> v = JStr s.
Proof.
  destruct v as [| |m|t]; simpl; split; intro H; try discriminate.
  - apply String.eqb_eq in H. now subst.
  - injection H as ->. apply String.eqb_refl.
Qed.

Lemma includes_allowedPayloads (v : JsVal) :
  includes allowedPayloads v = true <-> v = JNum 0 \/ v = JNum 8 \/ v = JNum 101.
Proof.
  unfold includes, allowedPayloads.
  destruct v as [| |n|s]; cbv [existsb same_value_zero strict_eq].
  - split; [discriminate | intros [H|[H|H]]; discriminate].
  - split; [discriminate | intros [H|[H|H]]; discriminate].
  - rewrite orb_false_r, !orb_true_iff, !Z.eqb_eq.
    split; intros [H|[H|H]]; subst; auto; injection H as <-; auto.
  - split; [discriminate | intros [H|[H|H]]; discriminate].
Qed.

Example parseInt_samples :
  parseInt (JStr "0101") = JNum 101 /\ parseInt (JStr " 0x65") = JNum 101 /\
  parseInt (JStr "-8abc") = JNum (-8) /\ parseInt (JStr "") = JNaN /\
  parseInt (JStr "0x") = JNaN /\ parseInt JUndefined = JNaN /\
  parseInt (JNum 8) = JNum 8.
Proof. repeat split. Qed.

(** A string payload is never among the allowed ones for the rtp filter,
    while the fmtp filter reads it through [parseInt]. *)
Example string_payload_filters :
  rtp_allowed (mkRtp (JStr "0101") (JStr "telephone-event") (JNum 8000) JUndefined)
  = false /\
  fmtp_allowed (mkFmtp (JStr "0101") (JStr "0-15")) = true.
Proof. split; reflexivity. Qed.

(** ** Lists: filter, find and the conditional push *)

Section PushUnlessFound.

Context {A : Type}.
Variables (p q : A -> bool) (x : A).

Lemma find_none_iff (xs : list A) :
  find p xs = None <-> forall y, In y xs -> p y = false.
Proof.
  split.
  - apply find_none.
  - induction xs as [|a xs IH]; simpl; intro H; [reflexivity|].
    rewrite (H a (or_introl eq_refl)). apply IH. intros y Hy. apply H. now right.
Qed.

Lemma find_app_singleton (xs : list A) :
  p x = true -> find p (xs ++ [x]) <> None.
Proof.
  intros Hx. induction xs as [|b xs IH]; simpl.
  - rewrite Hx. discriminate.
  - destruct (p b); [discriminate | exact IH].
Qed.

Lemma filter_fixed (xs : list A) :
  (forall y, In y xs -> q y = true) -> filter q xs = xs.
Proof.
  induction xs as [|a xs IH]; simpl; intro H; [reflexivity|].
  rewrite (H a (or_introl eq_refl)). f_equal. apply IH. intros y Hy. apply H. now right.
Qed.

Lemma push_unless_found_In (xs : list A) (y : A) :
  In y (push_unless_found p x xs) <->
  In y xs \/ (y = x /\ forall z, In z xs -> p z = false).
Proof.
  unfold push_unless_found. destruct (find p xs) as [a|] eqn:E.
  - split; [now left | intros [H|[_ H]]; [exact H|]].
    apply find_some in E. destruct E as [Hin Hp].
    rewrite (H a Hin) in Hp. discriminate.
  - rewrite in_app_iff. simpl. split.
    + intros [H|[H|[]]]; [now left | right; split; [now symmetry | now apply find_none_iff]].
    + intros [H|[H _]]; [now left | right; left; now symmetry].
Qed.

Lemma push_unless_found_has (xs : list A) :
  p x = true -> exists y, In y (push_unless_found p x xs) /\ p y = true.
Proof.
  intro Hx. unfold push_unless_found. destruct (find p xs) as [a|] eqn:E.
  - exists a. now apply find_some in E.
  - exists x. split; [apply in_or_app; right; now left | exact Hx].
Qed.

(** Filtering and pushing a second time changes nothing, when the pushed
    element passes both tests. *)
Lemma push_filter_idempotent (xs : list A) :
  p x = true -> q x = true ->
  push_unless_found p x (filter q (push_unless_found p x (filter q xs)))
  = push_unless_found p x (filter q xs).
Proof.
  intros Hp Hq.
  assert (Hall : forall y, In y (push_unless_found p x (filter q xs)) -> q y = true).
  { intros y Hy. apply push_unless_found_In in Hy.
    destruct Hy as [Hy|[-> _]]; [|exact Hq].
    now apply filter_In in Hy. }
  rewrite (filter_fixed _ Hall).
  unfold push_unless_found at 1.
  destruct (find p (push_unless_found p x (filter q xs))) as [a|] eqn:E; [reflexivity|].
  exfalso. unfold push_unless_found in E.
  destruct (find p (filter q xs)) as [b|] eqn:E'.
  - rewrite E' in E. discriminate.
  - now apply (find_app_singleton (filter q xs)) in Hp.
Qed.

End PushUnlessFound.

(** ** rewriteSdp *)

Lemma rewriteMedia_idempotent (m : Media) :
  rewriteMedia (rewriteMedia m) = rewriteMedia m.
Proof.
  unfold rewriteMedia.
  destruct (strict_eq (type m) (JStr "audio")) eqn:E; simpl; rewrite E; [|reflexivity].
  f_equal.
  - apply push_filter_idempotent; reflexivity.
  - f_equal. apply push_filter_idempotent; reflexivity.
Qed.

Lemma rewriteSession_idempotent (s : Session) :
  rewriteSession (rewriteSession s) = rewriteSession s.
Proof.
  unfold rewriteSession. simpl. f_equal.
  rewrite map_map. apply map_ext. apply rewriteMedia_idempotent.
Qed.

(** The rewrite establishes [negotiated], and leaves alone whatever
    already satisfies it. *)
Lemma rewriteMedia_negotiated (m : Media) : negotiated (rewriteMedia m) = true.
Proof.
  unfold rewriteMedia.
  destruct (strict_eq (type m) (JStr "audio")) eqn:E;
    unfold negotiated; cbn [type payloads rtp fmtp rtcp]; rewrite E; [|reflexivity].
  assert (Hp : strict_eq (JStr (join " " allowedPayloads))
                 (JStr (join " " allowedPayloads)) = true) by reflexivity.
  rewrite Hp. cbn [andb].
  assert (Hall : forall A (p q : A -> bool) (x : A) (xs : list A),
             p x = true -> q x = true ->
             forallb q (push_unless_found p x (filter q xs)) = true
             /\ existsb p (push_unless_found p x (filter q xs)) = true).
  { intros A p q x xs Hpx Hqx. split.
    - apply forallb_forall. intros y Hy. apply push_unless_found_In in Hy.
      destruct Hy as [Hy|[-> _]]; [now apply filter_In in Hy | exact Hqx].
    - apply existsb_exists. now apply push_unless_found_has. }
  destruct (Hall _ rtp_is_101 rtp_allowed telephone_event_rtp (rtp m)
              eq_refl eq_refl) as [H1 H2].
  destruct (Hall _ fmtp_is_101 fmtp_allowed telephone_event_fmtp
              (match fmtp m with Some fs => fs | None => [] end)
              eq_refl eq_refl) as [H3 H4].
  now rewrite H1, H2, H3, H4.
Qed.



Section RewriteSdp.

Context {stack : SipStack} {S : Type}.
Variables (sdp : string) (st : S).

Lemma rewriteSdp_parse_throws (e : Exn) :
  sdp_parse sdp = Throw e ->
  rewriteSdp sdp st
  = ([console_warn "[gateway] Failed to parse SDP:" e], st, Ok sdp).
Proof.
  intro H. unfold rewriteSdp, try_catch, bind, lift_result, emit, ret.
  rewrite H. reflexivity.
Qed.

Lemma rewriteSdp_write_throws (parsed : Session) (e : Exn) :
  sdp_parse sdp = Ok parsed ->
  sdp_write (rewriteSession parsed) = Throw e ->
  rewriteSdp sdp st
  = ([console_warn "[gateway] Failed to parse SDP:" e], st, Ok sdp).
Proof.
  intros H1 H2. unfold rewriteSdp, try_catch, bind, lift_result, emit, ret.
  rewrite H1, H2. reflexivity.
Qed.

Lemma rewriteSdp_written (parsed : Session) (out : string) :
  sdp_parse sdp = Ok parsed ->
  sdp_write (rewriteSession parsed) = Ok out ->
  rewriteSdp sdp st = ([], st, Ok out).
Proof.
  intros H1 H2. unfold rewriteSdp, try_catch, bind, lift_result, emit, ret.
  rewrite H1, H2. reflexivity.
Qed.

(** [rewriteSdp] always returns a string: whatever is thrown inside is
    caught, and the state is not touched. *)
Lemma rewriteSdp_returns :
  exists t out, rewriteSdp sdp st = (t, st, Ok out).
Proof.
  destruct (sdp_parse sdp) as [parsed|e] eqn:H1.
  - destruct (sdp_write (rewriteSession parsed)) as [out|e] eqn:H2.
    + exists [], out. exact (rewriteSdp_written parsed out H1 H2).
    + eexists _, sdp. exact (rewriteSdp_write_throws parsed e H1 H2).
  - eexists _, sdp. exact (rewriteSdp_parse_throws e H1).
Qed.

End RewriteSdp.

(** Pushing after filtering, when whatever [p] finds also passes the
    filter [q]: the element is appended exactly when [p] finds nothing in
    the list as it was before filtering. *)
Lemma push_filter_exact {A : Type} (p q : A -> bool) (x : A) (xs : list A) :
  (forall y, p y = true -> q y = true) ->
  push_unless_found p x (filter q xs)
  = (filter q xs ++ (if existsb p xs then [] else [x]))%list.
Proof.
  intro Hpq. unfold push_unless_found.
  assert (H : match find p (filter q xs) with Some _ => true | None => false end
              = existsb p xs).
  { induction xs as [|a xs IH]; [reflexivity|]. cbn [filter existsb].
    destruct (q a) eqn:Hq.
    - cbn [find]. destruct (p a); [reflexivity | exact IH].
    - destruct (p a) eqn:Hp; [|exact IH].
      rewrite (Hpq a Hp) in Hq. discriminate. }
  destruct (find p (filter q xs)); rewrite <- H; [now rewrite app_nil_r | reflexivity].
Qed.

Lemma rtp_is_101_allowed (r : Rtp) : rtp_is_101 r = true -> rtp_allowed r = true.
Proof.
  unfold rtp_is_101, rtp_allowed. intro H. apply strict_eq_JNum in H.
  rewrite H. reflexivity.
Qed.

Lemma fmtp_is_101_allowed (f : Fmtp) : fmtp_is_101 f = true -> fmtp_allowed f = true.
Proof.
  unfold fmtp_is_101, fmtp_allowed. intro H. apply strict_eq_JNum in H.
  rewrite H. reflexivity.
Qed.

(** C1 (as amended).  When [sdpTransform.parse] returns a session, the
    session handed to [sdpTransform.write] has every media description
    rewritten by [rewriteMedia], and [rewriteSdp] returns what [write]
    returns (the original body if [write] throws).  For every audio media
    description: the payload list is "0 8 101"; the rtp entries are the
    offered ones whose payload is 0, 8 or 101, in their order and as they
    were, followed by telephone-event/8000 for payload 101 exactly when no
    entry for 101 was offered; the format parameters are the offered ones
    whose payload reads as 0, 8 or 101, in their order and as they were,
    followed by "0-16" for payload 101 exactly when none for 101 was
    offered.  So an entry for 101 exists in both lists, every offered
    entry for 101 is kept with its own value, and nothing is synthesized
    beside one. *)
Theorem rewriteSdp_audio_payloads {stack : SipStack} {S : Type}
    (sdp : string) (st : S) (parsed : Session) :
  sdp_parse sdp = Ok parsed ->
  (exists t,
      rewriteSdp sdp st
      = (t, st, match sdp_write (rewriteSession parsed) with
                | Ok out => Ok out
                | Throw _ => Ok sdp
                end)) /\
  media (rewriteSession parsed) = map rewriteMedia (media parsed) /\
  forall m, In m (media parsed) -> type m = JStr "audio" ->
    let fmtp_in := match fmtp m with Some l => l | None => [] end in
    let rtp_out := rtp (rewriteMedia m) in
    payloads (rewriteMedia m) = JStr "0 8 101" /\
    rtp_out
    = (filter (fun r => includes [JNum 0; JNum 8; JNum 101] (rtp_payload r)) (rtp m)
       ++ (if existsb (fun r => strict_eq (rtp_payload r) (JNum 101)) (rtp m)
           then []
           else [mkRtp (JNum 101) (JStr "telephone-event") (JNum 8000) JUndefined]))%list /\
    (exists fmtp_out,
        fmtp (rewriteMedia m) = Some fmtp_out /\
        fmtp_out
        = (filter (fun f => includes [JNum 0; JNum 8; JNum 101]
                              (parseInt (fmtp_payload f))) fmtp_in
           ++ (if existsb (fun f => strict_eq (parseInt (fmtp_payload f)) (JNum 101))
                    fmtp_in
               then []
               else [mkFmtp (JNum 101) (JStr "0-16")]))%list /\
        (exists f, In f fmtp_out /\ parseInt (fmtp_payload f) = JNum 101) /\
        (forall f, In f fmtp_in -> parseInt (fmtp_payload f) = JNum 101 ->
                   In f fmtp_out) /\
        ((exists f, In f fmtp_in /\ parseInt (fmtp_payload f) = JNum 101) ->
         forall f, In f fmtp_out -> In f fmtp_in) /\
        ((forall f, In f fmtp_in -> parseInt (fmtp_payload f) <> JNum 101) ->
         forall f, In f fmtp_out -> parseInt (fmtp_payload f) = JNum 101 ->
                   f = mkFmtp (JNum 101) (JStr "0-16"))) /\
    (forall r, In r rtp_out ->
       rtp_payload r = JNum 0 \/ rtp_payload r = JNum 8 \/ rtp_payload r = JNum 101) /\
    (exists r, In r rtp_out /\ rtp_payload r = JNum 101) /\
    (forall r, In r (rtp m) -> rtp_payload r = JNum 101 -> In r rtp_out) /\
    ((exists r, In r (rtp m) /\ rtp_payload r = JNum 101) ->
     forall r, In r rtp_out -> In r (rtp m)) /\
    ((forall r, In r (rtp m) -> rtp_payload r <> JNum 101) ->
     In (mkRtp (JNum 101) (JStr "telephone-event") (JNum 8000) JUndefined) rtp_out).
Proof.
  intro Hparse. split; [|split; [reflexivity|]].
  - destruct (sdp_write (rewriteSession parsed)) as [out|e] eqn:Hw.
    + exists []. exact (rewriteSdp_written sdp st parsed out Hparse Hw).
    + eexists. exact (rewriteSdp_write_throws sdp st parsed e Hparse Hw).
  - intros m _ Haudio. cbv zeta. unfold rewriteMedia.
    rewrite (proj2 (strict_eq_JStr (type m) "audio") Haudio).
    cbn [payloads rtp fmtp].
    set (fmtp_in := match fmtp m with Some l => l | None => [] end).
    split; [reflexivity|]. split; [|split; [|split; [|split; [|split; [|split]]]]].
    + exact (push_filter_exact rtp_is_101 rtp_allowed telephone_event_rtp (rtp m)
               rtp_is_101_allowed).
    + eexists. split; [reflexivity|]. split; [|split; [|split; [|split]]].
      * exact (push_filter_exact fmtp_is_101 fmtp_allowed telephone_event_fmtp fmtp_in
                 fmtp_is_101_allowed).
      * destruct (push_unless_found_has fmtp_is_101 telephone_event_fmtp
                    (filter fmtp_allowed fmtp_in) eq_refl) as (f & Hin & Hf).
        exists f. split; [exact Hin | now apply strict_eq_JNum].
      * intros f Hf H101. apply push_unless_found_In. left.
        apply filter_In. split; [exact Hf|].
        unfold fmtp_allowed. rewrite H101. reflexivity.
      * intros (f0 & Hf0 & H0) f Hf. apply push_unless_found_In in Hf.
        destruct Hf as [Hf|[_ Hnone]]; [now apply filter_In in Hf|].
        exfalso.
        assert (Hin0 : In f0 (filter fmtp_allowed fmtp_in)).
        { apply filter_In. split; [exact Hf0|].
          unfold fmtp_allowed. rewrite H0. reflexivity. }
        apply Hnone in Hin0. unfold fmtp_is_101 in Hin0. rewrite H0 in Hin0.
        discriminate.
      * intros Hnone f Hf H101. apply push_unless_found_In in Hf.
        destruct Hf as [Hf|[-> _]]; [|reflexivity].
        apply filter_In in Hf. destruct Hf as [Hf _]. now apply Hnone in Hf.
    + intros r Hr. apply push_unless_found_In in Hr.
      destruct Hr as [Hr|[-> _]]; [|now right; right].
      apply filter_In in Hr. now apply includes_allowedPayloads.
    + destruct (push_unless_found_has rtp_is_101 telephone_event_rtp
                  (filter rtp_allowed (rtp m)) eq_refl) as (r & Hin & Hr).
      exists r. split; [exact Hin | now apply strict_eq_JNum].
    + intros r Hr H101. apply push_unless_found_In. left.
      apply filter_In. split; [exact Hr|].
      unfold rtp_allowed. rewrite H101. reflexivity.
    + intros (r0 & Hr0 & H0) r Hr. apply push_unless_found_In in Hr.
      destruct Hr as [Hr|[_ Hnone]]; [now apply filter_In in Hr|].
      exfalso.
      assert (Hin0 : In r0 (filter rtp_allowed (rtp m))).
      { apply filter_In. split; [exact Hr0|].
        unfold rtp_allowed. rewrite H0. reflexivity. }
      apply Hnone in Hin0. unfold rtp_is_101 in Hin0. rewrite H0 in Hin0.
      discriminate.
    + intro Hnone. apply push_unless_found_In. right. split; [reflexivity|].
      intros z Hz. apply filter_In in Hz. destruct Hz as [Hz _].
      destruct (rtp_is_101 z) eqn:E; [|reflexivity].
      apply strict_eq_JNum in E. now apply Hnone in Hz.
Qed.

Lemma rewriteSdp_audio_payloads_sample :
  @sdp_parse Sample.stack Sample.offer_sdp = Ok Sample.offer_session /\
  payloads (rewriteMedia Sample.offer_audio) = JStr "0 8 101" /\
  rtp (rewriteMedia Sample.offer_audio)
  = [ mkRtp (JNum 0) (JStr "PCMU") (JNum 8000) JUndefined;
      mkRtp (JNum 101) (JStr "telephone-event") (JNum 8000) JUndefined ] /\
  fmtp (rewriteMedia Sample.offer_audio) = Some [ mkFmtp (JNum 101) (JStr "0-15") ].
Proof.
  split; [reflexivity|].
  destruct (@rewriteSdp_audio_payloads Sample.stack unit Sample.offer_sdp tt
              Sample.offer_session eq_refl) as (_ & _ & H).
  destruct (H Sample.offer_audio (or_introl eq_refl) eq_refl)
    as (Hpayloads & Hrtp & (fs & Hsome & Hfmtp & _) & _).
  split; [exact Hpayloads|]. split; [exact Hrtp|].
  rewrite Hsome, Hfmtp. reflexivity.
Defined.

(** C1, as stated, fails: the offer's audio description carries
    [a=fmtp:101 0-15]; after the rewrite its only format parameter for
    payload 101 is still "0-15", and no "0-16" entry was added. *)
Lemma rewriteSdp_keeps_offered_fmtp :
  @sdp_parse Sample.stack Sample.offer_sdp = Ok Sample.offer_session /\
  media (rewriteSession Sample.offer_session) = [rewriteMedia Sample.offer_audio] /\
  type (rewriteMedia Sample.offer_audio) = JStr "audio" /\
  fmtp (rewriteMedia Sample.offer_audio) = Some [mkFmtp (JNum 101) (JStr "0-15")] /\
  JStr "0-15" <> JStr "0-16".
Proof.
  repeat split. discriminate.
Qed.


(** The sample offer is rewritten to the sample answer, which is rewritten
    to itself. *)
Example rewriteSdp_sample_run :
  @rewriteSdp Sample.stack unit Sample.offer_sdp tt
  = ([], tt, Ok Sample.rewritten_sdp) /\
  @rewriteSdp Sample.stack unit Sample.rewritten_sdp tt
  = ([], tt, Ok Sample.rewritten_sdp).
Proof. split; vm_compute; reflexivity. Qed.



(** C7 (as amended).  [rewriteSdp] never throws, and it ends in one of two
    ways.  Either [sdpTransform.parse] and [sdpTransform.write] both
    return: then nothing is logged and the returned body is what [write]
    printed for the rewritten session, whether or not the body given was
    complete.  Or one of them throws: then one warning is logged and the
    body is returned as it was given. *)
Theorem rewriteSdp_fail_open {stack : SipStack} {S : Type} (st : S) (sdp : string) :
  (exists p out,
      sdp_parse sdp = Ok p /\ sdp_write (rewriteSession p) = Ok out /\
      rewriteSdp sdp st = ([], st, Ok out)) \/
  (exists e,
      (sdp_parse sdp = Throw e \/
       exists p, sdp_parse sdp = Ok p /\ sdp_write (rewriteSession p) = Throw e) /\
      rewriteSdp sdp st
      = ([console_warn "[gateway] Failed to parse SDP:" e], st, Ok sdp)).
Proof.
  destruct (sdp_parse sdp) as [p|e] eqn:Hp.
  - destruct (sdp_write (rewriteSession p)) as [out|e] eqn:Hw.
    + left. exists p, out. repeat split; try assumption.
      exact (rewriteSdp_written sdp st p out Hp Hw).
    + right. exists e. split; [right; now exists p|].
      exact (rewriteSdp_write_throws sdp st p e Hp Hw).
  - right. exists e. split; [now left|].
    exact (rewriteSdp_parse_throws sdp st e Hp).
Qed.

(** C7, as stated, fails: the body cut off in the middle of its media line
    is not rejected by the parser, which returns a session for it; no
    warning is logged, and [rewriteSdp] returns a body that differs from
    the one it was given. *)
Lemma truncated_body_rewritten :
  @sdp_parse Sample.stack Sample.truncated_sdp = Ok Sample.truncated_session /\
  @rewriteSdp Sample.stack unit Sample.truncated_sdp tt
  = ([], tt, Ok Sample.truncated_rewritten) /\
  Sample.truncated_rewritten <> Sample.truncated_sdp.
Proof.
  split; [reflexivity|]. split; [vm_compute; reflexivity|].
  vm_compute. discriminate.
Qed.

(** ** Traces *)

Lemma sent_requests_app (t u : Trace) :
  sent_requests (t ++ u)%list = (sent_requests t ++ sent_requests u)%list.
Proof.
  induction t as [|e t IH]; simpl; [reflexivity|].
  destruct e as [| | |[r|r] cb]; simpl; now rewrite IH.
Qed.

Lemma sent_responses_app (t u : Trace) :
  sent_responses (t ++ u)%list = (sent_responses t ++ sent_responses u)%list.
Proof.
  induction t as [|e t IH]; simpl; [reflexivity|].
  destruct e as [| | |[r|r] cb]; simpl; now rewrite IH.
Qed.

Lemma with_rq_same (st : Store) : with_rq st (rq st) = st.
Proof. now destruct st. Qed.

(** ** onIncomingRequest *)

Section Handler.

Context {stack : SipStack}.
Variable cfg : Config.

(** What lines 93-97 do to the request: nothing when there is no body;
    otherwise the body becomes what [rewriteSdp] returned and
    [content-length] its byte length, as a decimal string. *)
Lemma rewrite_body_run (st : Store) :
  exists tb r1,
    rewrite_body st = (tb, with_rq st r1, Ok tt) /\
    sent_requests tb = [] /\ sent_responses tb = [] /\
    method r1 = method (rq st) /\ uri r1 = uri (rq st) /\
    h_from (headers r1) = h_from (headers (rq st)) /\
    h_to (headers r1) = h_to (headers (rq st)) /\
    match content (rq st) with
    | Some c =>
        if (c =? "")%string then r1 = rq st
        else exists t newSdp,
            rewriteSdp c st = (t, st, Ok newSdp) /\
            content r1 = Some newSdp /\
            h_content_length (headers r1)
            = JStr (Number_toString (Buffer_byteLength newSdp))
    | None => r1 = rq st
    end.
Proof.
  unfold rewrite_body, get_rq, bind, get, ret. simpl.
  destruct (content (rq st)) as [c|] eqn:Hc.
  - destruct (c =? "")%string eqn:Hempty; simpl.
    + exists [], (rq st). rewrite with_rq_same. now repeat split.
    + destruct (rewriteSdp_returns c st) as (t & newSdp & Hrun).
      unfold bind. rewrite Hrun. unfold set_rq, modify. simpl.
      exists t,
        (set_headers
           (set_content_length (JStr (Number_toString (Buffer_byteLength newSdp))))
           (set_content newSdp (rq st))).
      split; [rewrite ?app_nil_r; reflexivity|].
      assert (Ht : sent_requests t = [] /\ sent_responses t = []).
      { unfold rewriteSdp, try_catch, bind, lift_result, emit, ret in Hrun.
        destruct (sdp_parse c) as [parsed|e].
        - destruct (sdp_write (rewriteSession parsed)) as [out|e];
            injection Hrun as <- _; now split.
        - injection Hrun as <- _; now split. }
      destruct Ht as [Ht1 Ht2].
      repeat split; try assumption.
      exists t, newSdp. now repeat split.
  - exists [], (rq st). rewrite with_rq_same. now repeat split.
Qed.

(** The request as lines 98-109 leave it. *)
Lemma retarget_fields (r : Request) :
  let r' := set_headers (set_contact (contactUri cfg))
              (set_headers (set_to_uri (destUri cfg)) (set_uri (destUri cfg) r)) in
  method r' = method r /\
  uri r' = JStr (destUri cfg) /\
  content r' = content r /\
  h_from (headers r') = h_from (headers r) /\
  h_content_length (headers r') = h_content_length (headers r) /\
  h_to (headers r')
  = Some (match h_to (headers r) with
          | Some t => {| na_name := na_name t; na_uri := JStr (destUri cfg);
                         na_params := na_params t |}
          | None => {| na_name := JUndefined; na_uri := JStr (destUri cfg);
                       na_params := None |}
          end).
Proof. now repeat split. Qed.

(** The INVITE branch, run to its end. *)
Lemma onIncomingRequest_invite (st : Store) :
  method (rq st) = "INVITE" ->
  exists tb r1,
    rewrite_body st = (tb, with_rq st r1, Ok tt) /\
    let r' := set_headers (set_contact (contactUri cfg))
                (set_headers (set_to_uri (destUri cfg)) (set_uri (destUri cfg) r1)) in
    let r500 := sip_makeResponse r' 500 "Server Error" in
    onIncomingRequest cfg st
    = ((console_log
          ("[gateway] Received INVITE from "
           ++ ToString (match h_from (headers (rq st)) with
                        | Some f => na_uri f
                        | None => JUndefined
                        end))%string
        :: tb
        ++ proxy_send (MRequest r') (Some defaultProxyCallback_closure)
        :: match proxy_send_throws (MRequest r') with
           | Some e =>
               [console_error "[gateway] Error processing request:" e;
                proxy_send (MResponse r500) None]
           | None => []
           end)%list,
       with_rq st r',
       match proxy_send_throws (MRequest r') with
       | Some _ =>
           match proxy_send_throws (MResponse r500) with
           | Some e' => Throw e'
           | None => Ok tt
           end
       | None => Ok tt
       end).
Proof.
  intro Hm.
  destruct (rewrite_body_run st) as (tb & r1 & Hbody & _).
  exists tb, r1. split; [exact Hbody|]. simpl.
  unfold onIncomingRequest, try_catch, bind at 1.
  unfold get_rq at 1, bind at 1, get, ret. simpl.
  rewrite Hm. simpl.
  unfold bind at 1. unfold emit at 1.
  unfold bind at 1. rewrite Hbody.
  unfold set_rq, modify, bind, get_rq, get, ret, proxy_send_call, emit, lift_result.
  simpl.
  destruct (proxy_send_throws
              (MRequest
                 (set_headers (set_contact (contactUri cfg))
                    (set_headers (set_to_uri (destUri cfg))
                       (set_uri (destUri cfg) r1))))) as [e|] eqn:Hthrow; simpl.
  - destruct (proxy_send_throws
                (MResponse
                   (sip_makeResponse
                      (set_headers (set_contact (contactUri cfg))
                         (set_headers (set_to_uri (destUri cfg))
                            (set_uri (destUri cfg) r1))) 500 "Server Error")));
      simpl; rewrite ?app_nil_r, <- ?app_assoc; reflexivity.
  - rewrite ?app_nil_r, <- ?app_assoc. reflexivity.
Qed.

(** The INVITE branch passes exactly one request to [proxy.send], with the
    callback: the request [rewrite_body] left, retargeted. *)
Lemma invite_forwarded (st : Store) :
  method (rq st) = "INVITE" ->
  exists tb r1,
    rewrite_body st = (tb, with_rq st r1, Ok tt) /\
    let r' := set_headers (set_contact (contactUri cfg))
                (set_headers (set_to_uri (destUri cfg)) (set_uri (destUri cfg) r1)) in
    sent_requests (trace_of (onIncomingRequest cfg st)) = [r'] /\
    In (proxy_send (MRequest r') (Some defaultProxyCallback_closure))
       (trace_of (onIncomingRequest cfg st)).
Proof.
  intro Hm.
  destruct (onIncomingRequest_invite st Hm) as (tb & r1 & Hbody & Hrun).
  exists tb, r1. split; [exact Hbody|].
  cbv zeta in Hrun |- *. rewrite Hrun. unfold trace_of. cbn [fst].
  destruct (rewrite_body_run st) as (tb' & r1' & Hbody' & Hreq & _).
  rewrite Hbody in Hbody'. injection Hbody' as <- _.
  split.
  - cbn [sent_requests]. rewrite sent_requests_app, Hreq. cbn [sent_requests app].
    f_equal. now destruct (proxy_send_throws _).
  - right. apply in_or_app. right. now left.
Qed.

(** The branch of the in-dialog methods, run to its end. *)
Lemma onIncomingRequest_in_dialog (st : Store) :
  (method (rq st) =? "INVITE")%string = false ->
  in_dialog_method (method (rq st)) = true ->
  let r500 := sip_makeResponse (rq st) 500 "Server Error" in
  onIncomingRequest cfg st
  = (proxy_send (MRequest (rq st)) None
     :: match proxy_send_throws (MRequest (rq st)) with
        | Some e =>
            [console_error "[gateway] Error processing request:" e;
             proxy_send (MResponse r500) None]
        | None => []
        end,
     st,
     match proxy_send_throws (MRequest (rq st)) with
     | Some _ =>
         match proxy_send_throws (MResponse r500) with
         | Some e' => Throw e'
         | None => Ok tt
         end
     | None => Ok tt
     end).
Proof.
  intros Hinv Hdlg. cbv zeta.
  cbv beta iota delta [onIncomingRequest try_catch bind get_rq get ret].
  rewrite Hinv, Hdlg.
  cbv beta iota delta [proxy_send_call bind emit lift_result ret app].
  destruct (proxy_send_throws (MRequest (rq st))) as [e|]; [|reflexivity].
  now destruct (proxy_send_throws (MResponse _)).
Qed.

(** The branch of every other method, run to its end. *)
Lemma onIncomingRequest_other (st : Store) :
  (method (rq st) =? "INVITE")%string = false ->
  in_dialog_method (method (rq st)) = false ->
  let r405 := sip_makeResponse (rq st) 405 "Method Not Allowed" in
  let r500 := sip_makeResponse (rq st) 500 "Server Error" in
  onIncomingRequest cfg st
  = (proxy_send (MResponse r405) None
     :: match proxy_send_throws (MResponse r405) with
        | Some e =>
            [console_error "[gateway] Error processing request:" e;
             proxy_send (MResponse r500) None]
        | None => []
        end,
     st,
     match proxy_send_throws (MResponse r405) with
     | Some _ =>
         match proxy_send_throws (MResponse r500) with
         | Some e' => Throw e'
         | None => Ok tt
         end
     | None => Ok tt
     end).
Proof.
  intros Hinv Hdlg. cbv zeta.
  cbv beta iota delta [onIncomingRequest try_catch bind get_rq get ret].
  rewrite Hinv, Hdlg.
  cbv beta iota delta [proxy_send_call bind emit lift_result ret app].
  destruct (proxy_send_throws (MResponse (sip_makeResponse (rq st) 405 _)))
    as [e|]; [|reflexivity].
  now destruct (proxy_send_throws (MResponse _)).
Qed.

End Handler.

Lemma not_invite (m : string) :
  ~ In m ["INVITE"; "ACK"; "CANCEL"; "BYE"; "PRACK"; "UPDATE"] ->
  (m =? "INVITE")%string = false /\ in_dialog_method m = false.
Proof.
  intro H. simpl in H. unfold in_dialog_method.
  repeat match goal with
         | |- context [(m =? ?s)%string] =>
             destruct (String.eqb_spec m s); [exfalso; apply H; auto 10|]
         end.
  now split.
Qed.

Lemma in_dialog (m : string) :
  In m ["ACK"; "CANCEL"; "BYE"; "PRACK"; "UPDATE"] ->
  (m =? "INVITE")%string = false /\ in_dialog_method m = true.
Proof.
  simpl. intros [<-|[<-|[<-|[<-|[<-|[]]]]]]; now split.
Qed.

(** C5.  On an INVITE the handler passes one request to [proxy.send]: its
    request-URI and the URI of its To header are
    [sip:TWILIO_DEST@TWILIO_DOMAIN] (a To header that was absent is created
    with just that URI, one that was present keeps its name and
    parameters), and its From header is the one the request arrived
    with. *)
Theorem invite_retargeted {stack : SipStack} (cfg : Config) (st : Store) :
  method (rq st) = "INVITE" ->
  exists r',
    sent_requests (trace_of (onIncomingRequest cfg st)) = [r'] /\
    In (proxy_send (MRequest r') (Some defaultProxyCallback_closure))
       (trace_of (onIncomingRequest cfg st)) /\
    uri r' = JStr ("sip:" ++ TWILIO_DEST cfg ++ "@" ++ TWILIO_DOMAIN cfg) /\
    h_to (headers r')
    = Some (match h_to (headers (rq st)) with
            | Some t =>
                {| na_name := na_name t;
                   na_uri := JStr ("sip:" ++ TWILIO_DEST cfg ++ "@" ++ TWILIO_DOMAIN cfg);
                   na_params := na_params t |}
            | None =>
                {| na_name := JUndefined;
                   na_uri := JStr ("sip:" ++ TWILIO_DEST cfg ++ "@" ++ TWILIO_DOMAIN cfg);
                   na_params := None |}
            end) /\
    h_from (headers r') = h_from (headers (rq st)).
Proof.
  intro Hm.
  destruct (invite_forwarded cfg st Hm) as (tb & r1 & Hbody & Hsent & Hin).
  destruct (rewrite_body_run st) as (tb' & r1' & Hbody' & _ & _ & _ & _ & Hfrom & Hto & _).
  rewrite Hbody in Hbody'. injection Hbody' as _ <-.
  eexists. split; [exact Hsent|]. split; [exact Hin|].
  destruct (retarget_fields cfg r1) as (_ & Huri & _ & Hfrom' & _ & Hto').
  cbv zeta in Huri, Hfrom', Hto'.
  split; [exact Huri|]. split.
  - rewrite Hto', Hto. reflexivity.
  - now rewrite Hfrom'.
Qed.

Lemma invite_retargeted_sample :
  method (rq (Sample.store Sample.invite)) = "INVITE" /\
  exists r',
    sent_requests (trace_of (@onIncomingRequest Sample.stack Sample.cfg
                               (Sample.store Sample.invite))) = [r'] /\
    uri r' = JStr "sip:+5215541655565@nonocard.sip.twilio.com" /\
    h_from (headers r') = Some Sample.caller.
Proof.
  split; [reflexivity|].
  destruct (@invite_retargeted Sample.stack Sample.cfg (Sample.store Sample.invite)
              eq_refl) as (r' & Hsent & _ & Huri & _ & Hfrom).
  exists r'. repeat split; assumption.
Defined.

(** C8.  A request whose method is ACK, CANCEL, BYE, PRACK or UPDATE is
    passed to [proxy.send] as it arrived: it is the only request sent, the
    first thing the handler does, and the request object is left as it
    was.  When that [proxy.send] returns, nothing else happens. *)
Theorem in_dialog_relayed_verbatim {stack : SipStack} (cfg : Config) (st : Store) :
  In (method (rq st)) ["ACK"; "CANCEL"; "BYE"; "PRACK"; "UPDATE"] ->
  sent_requests (trace_of (onIncomingRequest cfg st)) = [rq st] /\
  store_of (onIncomingRequest cfg st) = st /\
  (exists tail,
      trace_of (onIncomingRequest cfg st)
      = proxy_send (MRequest (rq st)) None :: tail) /\
  (proxy_send_throws (MRequest (rq st)) = None ->
   onIncomingRequest cfg st = ([proxy_send (MRequest (rq st)) None], st, Ok tt)).
Proof.
  intro Hm. apply in_dialog in Hm. destruct Hm as [Hinv Hdlg].
  pose proof (onIncomingRequest_in_dialog cfg st Hinv Hdlg) as Hrun.
  cbv zeta in Hrun. rewrite Hrun. unfold trace_of, store_of. cbn [fst snd].
  repeat split.
  - cbn [sent_requests]. f_equal. now destruct (proxy_send_throws _).
  - eexists. reflexivity.
  - intro Hok. now rewrite Hok.
Qed.

Lemma in_dialog_relayed_verbatim_sample :
  In (method (rq (Sample.store Sample.bye))) ["ACK"; "CANCEL"; "BYE"; "PRACK"; "UPDATE"] /\
  sent_requests (trace_of (@onIncomingRequest Sample.stack Sample.cfg
                             (Sample.store Sample.bye))) = [Sample.bye].
Proof.
  assert (H : In (method (rq (Sample.store Sample.bye)))
                ["ACK"; "CANCEL"; "BYE"; "PRACK"; "UPDATE"]).
  { simpl. auto. }
  split; [exact H|].
  exact (proj1 (@in_dialog_relayed_verbatim Sample.stack Sample.cfg
                  (Sample.store Sample.bye) H)).
Defined.

(** C9.  A request whose method is none of INVITE, ACK, CANCEL, BYE, PRACK
    and UPDATE makes the handler pass [sip.makeResponse(rq, 405, 'Method
    Not Allowed')] to [proxy.send], and no request.  That response is the
    only one, unless [proxy.send] throws on it, in which case the [catch]
    block sends a 500 after it. *)
Theorem other_method_not_allowed {stack : SipStack} (cfg : Config) (st : Store) :
  ~ In (method (rq st)) ["INVITE"; "ACK"; "CANCEL"; "BYE"; "PRACK"; "UPDATE"] ->
  sent_requests (trace_of (onIncomingRequest cfg st)) = [] /\
  sent_responses (trace_of (onIncomingRequest cfg st))
  = sip_makeResponse (rq st) 405 "Method Not Allowed"
    :: match proxy_send_throws
               (MResponse (sip_makeResponse (rq st) 405 "Method Not Allowed")) with
       | Some _ => [sip_makeResponse (rq st) 500 "Server Error"]
       | None => []
       end /\
  (proxy_send_throws (MResponse (sip_makeResponse (rq st) 405 "Method Not Allowed"))
   = None ->
   onIncomingRequest cfg st
   = ([proxy_send (MResponse (sip_makeResponse (rq st) 405 "Method Not Allowed")) None],
      st, Ok tt)).
Proof.
  intro Hm. apply not_invite in Hm. destruct Hm as [Hinv Hdlg].
  pose proof (onIncomingRequest_other cfg st Hinv Hdlg) as Hrun.
  cbv zeta in Hrun. rewrite Hrun. unfold trace_of. cbn [fst snd].
  repeat split.
  - cbn [sent_requests]. now destruct (proxy_send_throws _).
  - cbn [sent_responses]. f_equal. now destruct (proxy_send_throws _).
  - intro Hok. now rewrite Hok.
Qed.

Lemma options_is_other_method :
  ~ In (method (rq (Sample.store Sample.options)))
       ["INVITE"; "ACK"; "CANCEL"; "BYE"; "PRACK"; "UPDATE"].
Proof.
  simpl. intros [H|[H|[H|[H|[H|[H|[]]]]]]]; discriminate.
Defined.

Lemma other_method_not_allowed_sample :
  sent_requests (trace_of (@onIncomingRequest Sample.stack Sample.cfg
                             (Sample.store Sample.options))) = [] /\
  sent_responses (trace_of (@onIncomingRequest Sample.stack Sample.cfg
                              (Sample.store Sample.options)))
  = [Sample.makeResponse Sample.options 405 "Method Not Allowed"].
Proof.
  destruct (@other_method_not_allowed Sample.stack Sample.cfg
              (Sample.store Sample.options) options_is_other_method)
    as (Hrq & Hrs & _).
  split; [exact Hrq | exact Hrs].
Defined.

(** C10.  On an INVITE with a non-empty body, the request passed to
    [proxy.send] carries the string [rewriteSdp] returned for that body,
    and its [content-length] is the decimal numeral of that string's length
    in UTF-8 bytes.  With no body (absent or empty), body and
    [content-length] are the ones the request arrived with. *)
Theorem invite_content_length {stack : SipStack} (cfg : Config) (st : Store) :
  method (rq st) = "INVITE" ->
  exists r',
    sent_requests (trace_of (onIncomingRequest cfg st)) = [r'] /\
    (forall c, content (rq st) = Some c -> c <> "" ->
       exists t newSdp,
         rewriteSdp c st = (t, st, Ok newSdp) /\
         content r' = Some newSdp /\
         h_content_length (headers r')
         = JStr (Number_toString (Buffer_byteLength newSdp))) /\
    (content (rq st) = None \/ content (rq st) = Some "" ->
     content r' = content (rq st) /\
     h_content_length (headers r') = h_content_length (headers (rq st))).
Proof.
  intro Hm.
  destruct (invite_forwarded cfg st Hm) as (tb & r1 & Hbody & Hsent & _).
  destruct (rewrite_body_run st) as (tb' & r1' & Hbody' & _ & _ & _ & _ & _ & _ & Hc).
  rewrite Hbody in Hbody'. injection Hbody' as _ <-.
  eexists. split; [exact Hsent|].
  destruct (retarget_fields cfg r1) as (_ & _ & Hcontent & _ & Hlen & _).
  cbv zeta in Hcontent, Hlen. rewrite Hcontent, Hlen.
  split.
  - intros c Hsome Hne. rewrite Hsome in Hc.
    destruct (String.eqb_spec c ""); [contradiction|].
    destruct Hc as (t & newSdp & Hrun & Hc1 & Hc2).
    exists t, newSdp. now repeat split.
  - intros [Hnone|Hempty].
    + rewrite Hnone in Hc. now subst r1.
    + rewrite Hempty in Hc. simpl in Hc. now subst r1.
Qed.

Lemma invite_content_length_sample :
  method (rq (Sample.store Sample.invite)) = "INVITE" /\
  exists r',
    sent_requests (trace_of (@onIncomingRequest Sample.stack Sample.cfg
                               (Sample.store Sample.invite))) = [r'] /\
    content r' = Some Sample.rewritten_sdp /\
    h_content_length (headers r') = JStr "176".
Proof.
  split; [reflexivity|].
  destruct (@invite_content_length Sample.stack Sample.cfg (Sample.store Sample.invite)
              eq_refl) as (r' & Hsent & Hbody & _).
  exists r'. split; [exact Hsent|].
  destruct (Hbody Sample.offer_sdp eq_refl) as (t & newSdp & Hrun & Hc & Hl).
  - discriminate.
  - vm_compute in Hrun. injection Hrun as _ <-.
    split; [exact Hc | exact Hl].
Defined.

(** [Buffer.byteLength] counts bytes, [length] UTF-16 code units: on
    U+00E9 (bytes C3 A9) they are 2 and 1. *)
Example byteLength_is_not_length :
  let e_acute := String (ascii_of_nat 195) (String (ascii_of_nat 169) "") in
  Buffer_byteLength e_acute = 2 /\ String_length e_acute = 1.
Proof. split; reflexivity. Qed.

(** ** defaultProxyCallback *)

Section Callback.

Context {stack : SipStack}.
Variable cfg : Config.

(** The challenge branch, run to its end: the outcome of
    [digest.signRequest] decides between a resend and an exception that
    leaves the callback. *)
Lemma defaultProxyCallback_challenge (rs : Response) (st : Store) :
  is_challenge rs = true ->
  defaultProxyCallback cfg rs st
  = match digest_signRequest (rng st) (sessionTwilio st) (rq st) rs
            (credentialsTwilio cfg) with
    | Ok (g, session, r) =>
        ([console_log "[gateway] Received challenge from Twilio, signing request...";
          proxy_send (MRequest r) None],
         {| sessionTwilio := session; rq := r; rng := g |},
         match proxy_send_throws (MRequest r) with
         | Some e => Throw e
         | None => Ok tt
         end)
    | Throw e =>
        ([console_log "[gateway] Received challenge from Twilio, signing request..."],
         st, Throw e)
    end.
Proof.
  intro H. unfold defaultProxyCallback. rewrite H.
  cbv beta iota delta [bind emit signRequest get_rq get ret proxy_send_call
                         lift_result app].
  destruct (digest_signRequest _ _ _ _ _) as [[[g session] r]|e]; [|reflexivity].
  cbn [rq]. now destruct (proxy_send_throws (MRequest r)).
Qed.

(** On a challenge the callback passes no response to [proxy.send],
    whatever the digest module does. *)
Lemma challenge_not_answered (rs : Response) (st : Store) :
  is_challenge rs = true ->
  sent_responses (trace_of (defaultProxyCallback cfg rs st)) = [].
Proof.
  intro H. rewrite (defaultProxyCallback_challenge rs st H).
  now destruct (digest_signRequest _ _ _ _ _) as [[[g session] r]|e].
Qed.

(** On a challenge the callback resends exactly when it returns. *)
Lemma challenge_resent (rs : Response) (st : Store) :
  is_challenge rs = true ->
  result_of (defaultProxyCallback cfg rs st) = Ok tt ->
  sent_requests (trace_of (defaultProxyCallback cfg rs st))
  = [rq (store_of (defaultProxyCallback cfg rs st))].
Proof.
  intro H. rewrite (defaultProxyCallback_challenge rs st H).
  destruct (digest_signRequest _ _ _ _ _) as [[[g session] r]|e];
    [reflexivity | discriminate].
Qed.

Lemma deliver_cons (rs : Response) (rest : list Response) (st : Store) :
  deliver cfg (rs :: rest) st
  = match defaultProxyCallback cfg rs st with
    | (t, s1, Ok _) =>
        match deliver cfg rest s1 with
        | (t', s2, r) => ((t ++ t')%list, s2, r)
        end
    | (t, s1, Throw e) => (t, s1, Throw e)
    end.
Proof. reflexivity. Qed.

Lemma deliver_challenges (rss : list Response) :
  forallb is_challenge rss = true ->
  forall st,
    sent_responses (trace_of (deliver cfg rss st)) = [] /\
    (result_of (deliver cfg rss st) = Ok tt ->
     List.length (sent_requests (trace_of (deliver cfg rss st))) = List.length rss).
Proof.
  induction rss as [|rs rest IH]; intros Hall st.
  - now split.
  - simpl in Hall. apply andb_true_iff in Hall. destruct Hall as [Hrs Hrest].
    rewrite deliver_cons.
    pose proof (challenge_not_answered rs st Hrs) as Hno.
    pose proof (challenge_resent rs st Hrs) as Hre.
    destruct (defaultProxyCallback cfg rs st) as [[t s1] [[]|e]].
    + destruct (IH Hrest s1) as [IH1 IH2].
      destruct (deliver cfg rest s1) as [[t' s2] r].
      unfold trace_of, result_of in *. cbn [fst snd] in *.
      split.
      * now rewrite sent_responses_app, Hno, IH1.
      * intro Hok. rewrite sent_requests_app, length_app, (Hre eq_refl), (IH2 Hok).
        reflexivity.
    + unfold trace_of, result_of in *. cbn [fst snd] in *.
      split; [exact Hno | discriminate].
Qed.

End Callback.

Section CallbackSequences.

Context {stack : SipStack}.
Variable cfg : Config.

(** Delivering one sequence after another. *)
Lemma deliver_app (pre post : list Response) :
  forall st,
    deliver cfg (pre ++ post) st
    = match deliver cfg pre st with
      | (t, s1, Ok _) =>
          match deliver cfg post s1 with
          | (t', s2, r) => ((t ++ t')%list, s2, r)
          end
      | (t, s1, Throw e) => (t, s1, Throw e)
      end.
Proof.
  induction pre as [|rs pre IH]; intro st.
  - cbn [app deliver ret]. now destruct (deliver cfg post st) as [[t' s2] r].
  - change ((rs :: pre) ++ post)%list with (rs :: (pre ++ post))%list.
    rewrite !deliver_cons.
    destruct (defaultProxyCallback cfg rs st) as [[t s1] [[]|e]]; [|reflexivity].
    rewrite IH.
    destruct (deliver cfg pre s1) as [[t1 s2] [[]|e]]; [|reflexivity].
    destruct (deliver cfg post s2) as [[t2 s3] r].
    now rewrite app_assoc.
Qed.

(** One more challenge after a sequence that ended normally: it is signed
    from the store the sequence left, and the signed request is resent. *)
Lemma deliver_challenge_last (pre : list Response) (rs : Response) (st : Store) :
  is_challenge rs = true ->
  result_of (deliver cfg (pre ++ [rs]) st) = Ok tt ->
  exists g session r,
    digest_signRequest (rng (store_of (deliver cfg pre st)))
      (sessionTwilio (store_of (deliver cfg pre st)))
      (rq (store_of (deliver cfg pre st))) rs (credentialsTwilio cfg)
    = Ok (g, session, r) /\
    store_of (deliver cfg (pre ++ [rs]) st)
    = {| sessionTwilio := session; rq := r; rng := g |} /\
    trace_of (deliver cfg (pre ++ [rs]) st)
    = (trace_of (deliver cfg pre st)
       ++ [console_log "[gateway] Received challenge from Twilio, signing request...";
           proxy_send (MRequest r) None])%list.
Proof.
  intros Hrs. rewrite deliver_app.
  destruct (deliver cfg pre st) as [[t s1] [[]|e]];
    unfold result_of, store_of, trace_of; cbn [fst snd]; [|discriminate].
  rewrite deliver_cons, (defaultProxyCallback_challenge cfg rs s1 Hrs).
  destruct (digest_signRequest _ _ _ _ _) as [[[g session] r]|e];
    [|discriminate].
  destruct (proxy_send_throws (MRequest r)); [discriminate|].
  cbn [deliver ret fst snd]. intros _.
  exists g, session, r. rewrite app_nil_r. now repeat split.
Qed.

End CallbackSequences.

(** C2 (as amended).  The callback keeps no count of challenges.  For any
    sequence of 401/407 responses handed to it: no response is passed to
    [proxy.send]; when no exception leaves the callback the request is
    resent once per challenge; and each challenge in turn is signed by
    [digest.signRequest] with the shared session, the request and the
    random source as the challenges before it left them and with the
    configured credentials, the session and the request are replaced by
    what it returned, and exactly the request it returned is passed to
    [proxy.send], without a callback. *)
Theorem challenges_always_resent {stack : SipStack} (cfg : Config)
    (rss : list Response) (st : Store) :
  forallb is_challenge rss = true ->
  sent_responses (trace_of (deliver cfg rss st)) = [] /\
  (result_of (deliver cfg rss st) = Ok tt ->
   List.length (sent_requests (trace_of (deliver cfg rss st))) = List.length rss) /\
  (forall pre rs post,
      rss = (pre ++ rs :: post)%list ->
      result_of (deliver cfg (pre ++ [rs]) st) = Ok tt ->
      exists g session r,
        digest_signRequest (rng (store_of (deliver cfg pre st)))
          (sessionTwilio (store_of (deliver cfg pre st)))
          (rq (store_of (deliver cfg pre st))) rs (credentialsTwilio cfg)
        = Ok (g, session, r) /\
        store_of (deliver cfg (pre ++ [rs]) st)
        = {| sessionTwilio := session; rq := r; rng := g |} /\
        trace_of (deliver cfg (pre ++ [rs]) st)
        = (trace_of (deliver cfg pre st)
           ++ [console_log "[gateway] Received challenge from Twilio, signing request...";
               proxy_send (MRequest r) None])%list).
Proof.
  intro H. destruct (deliver_challenges cfg rss H st) as [H1 H2].
  split; [exact H1|]. split; [exact H2|].
  intros pre rs post -> Hok.
  rewrite forallb_app in H. apply andb_true_iff in H. destruct H as [_ H].
  cbn [forallb] in H. apply andb_true_iff in H. destruct H as [Hrs _].
  exact (deliver_challenge_last cfg pre rs st Hrs Hok).
Qed.

Lemma challenges_always_resent_sample :
  sent_responses
    (trace_of (@deliver Sample.stack Sample.cfg
                 [Sample.challenge_401; Sample.challenge_401] Sample.forwarded)) = [] /\
  List.length
    (sent_requests
       (trace_of (@deliver Sample.stack Sample.cfg
                    [Sample.challenge_401; Sample.challenge_401] Sample.forwarded)))
  = 2%nat /\
  exists g session r,
    @digest_signRequest Sample.stack
      (rng (store_of (@deliver Sample.stack Sample.cfg [Sample.challenge_401]
                        Sample.forwarded)))
      (sessionTwilio (store_of (@deliver Sample.stack Sample.cfg [Sample.challenge_401]
                                  Sample.forwarded)))
      (rq (store_of (@deliver Sample.stack Sample.cfg [Sample.challenge_401]
                       Sample.forwarded)))
      Sample.challenge_401 (credentialsTwilio Sample.cfg)
    = Ok (g, session, r) /\
    as_nc session = 2 /\
    sent_requests
      (trace_of (@deliver Sample.stack Sample.cfg
                   [Sample.challenge_401; Sample.challenge_401] Sample.forwarded))
    = [rq (store_of (@deliver Sample.stack Sample.cfg [Sample.challenge_401]
                       Sample.forwarded)); r].
Proof.
  destruct (@challenges_always_resent Sample.stack Sample.cfg
              [Sample.challenge_401; Sample.challenge_401] Sample.forwarded eq_refl)
    as (Hrs & Hrq & Hsign).
  split; [exact Hrs|]. split; [exact (Hrq eq_refl)|].
  destruct (Hsign [Sample.challenge_401] Sample.challenge_401 [] eq_refl eq_refl)
    as (g & session & r & Hs & _ & _).
  exists g, session, r. split; [exact Hs|].
  vm_compute in Hs. injection Hs as <- <- <-.
  split; vm_compute; reflexivity.
Defined.

(** C2, as stated, fails.  Downstream challenges three times, one more
    than the recommended cap of 2.  The callback is attached to the
    forwarded INVITE, and line 118 resends without one, so how many of the
    three challenges reach the callback is the library's matter: the first
    only, the first two, or all three.  In each case every challenge that
    reaches it is answered by a resend and the gateway passes no response
    at all to [proxy.send], so no gateway-failure status goes upstream;
    when all three reach it there are three resends. *)
Lemma third_challenge_resent :
  (List.length
     (sent_requests
        (trace_of (@deliver Sample.stack Sample.cfg
                     [Sample.challenge_401] Sample.forwarded))) = 1%nat /\
   sent_responses
     (trace_of (@deliver Sample.stack Sample.cfg
                  [Sample.challenge_401] Sample.forwarded)) = []) /\
  (List.length
     (sent_requests
        (trace_of (@deliver Sample.stack Sample.cfg
                     [Sample.challenge_401; Sample.challenge_401]
                     Sample.forwarded))) = 2%nat /\
   sent_responses
     (trace_of (@deliver Sample.stack Sample.cfg
                  [Sample.challenge_401; Sample.challenge_401]
                  Sample.forwarded)) = []) /\
  (List.length
     (sent_requests
        (trace_of (@deliver Sample.stack Sample.cfg
                     [Sample.challenge_401; Sample.challenge_401; Sample.challenge_401]
                     Sample.forwarded))) = 3%nat /\
   sent_responses
     (trace_of (@deliver Sample.stack Sample.cfg
                  [Sample.challenge_401; Sample.challenge_401; Sample.challenge_401]
                  Sample.forwarded)) = [] /\
   result_of (@deliver Sample.stack Sample.cfg
                [Sample.challenge_401; Sample.challenge_401; Sample.challenge_401]
                Sample.forwarded) = Ok tt).
Proof.
  repeat split; vm_compute; reflexivity.
Qed.

(** C3.  With the digest transition of the specification in place of the
    library's: when the callback handles a 401/407 whose challenge names a
    realm and a nonce, then if the session's stored nonce is that nonce the
    nonce-count goes up by one (nonce and client nonce stay), and otherwise
    the nonce is adopted, the nonce-count becomes 1 and the client nonce is
    the next one drawn from the random source. *)
Theorem nonce_count_transition (base : SipStack)
    (hash : string -> string -> string) (gen_cnonce : Rng -> string * Rng)
    (cfg : Config) (st : Store) (rs : Response) (ch : Challenge)
    (rlm nonce : string) :
  is_challenge rs = true ->
  challenge_of rs = Some ch ->
  ch_realm ch = Some rlm ->
  ch_nonce ch = Some nonce ->
  let session := sessionTwilio st in
  let st' := store_of (@defaultProxyCallback (with_spec_digest hash gen_cnonce base)
                         cfg rs st) in
  let session' := sessionTwilio st' in
  (as_nonce session = Some nonce ->
   as_nc session' = as_nc session + 1 /\ as_nc session < as_nc session' /\
   as_nonce session' = Some nonce /\ as_cnonce session' = as_cnonce session /\
   rng st' = rng st) /\
  (as_nonce session <> Some nonce ->
   as_nonce session' = Some nonce /\ as_nc session' = 1 /\
   as_cnonce session' = Some (fst (gen_cnonce (rng st))) /\
   rng st' = snd (gen_cnonce (rng st))).
Proof.
  intros Hch Hc Hr Hn. cbv zeta.
  rewrite (@defaultProxyCallback_challenge (with_spec_digest hash gen_cnonce base)
             cfg rs st Hch).
  cbn [digest_signRequest with_spec_digest]. unfold signRequest_spec.
  rewrite Hc, Hr, Hn. unfold next_nonce_state.
  destruct (as_nonce (sessionTwilio st)) as [stored|] eqn:Hs.
  - destruct (String.eqb_spec stored nonce) as [->|Hne].
    + unfold store_of. cbn [fst snd sessionTwilio as_nc as_nonce as_cnonce rng].
      split; [intros _; repeat split; lia | intro H; now elim H].
    + destruct (gen_cnonce (rng st)) as [c g'].
      unfold store_of. cbn [fst snd sessionTwilio as_nc as_nonce as_cnonce rng].
      split; [intro H; injection H as H; contradiction | intros _; now repeat split].
  - destruct (gen_cnonce (rng st)) as [c g'].
    unfold store_of. cbn [fst snd sessionTwilio as_nc as_nonce as_cnonce rng].
    split; [discriminate | intros _; now repeat split].
Qed.

Lemma nonce_count_transition_sample :
  let st' := store_of (@defaultProxyCallback Sample.stack Sample.cfg
                         Sample.challenge_401 Sample.forwarded) in
  let st'' := store_of (@defaultProxyCallback Sample.stack Sample.cfg
                          Sample.challenge_401 st') in
  as_nc (sessionTwilio st') = 1 /\ as_nc (sessionTwilio st'') = 2.
Proof.
  cbv zeta. split.
  - destruct (nonce_count_transition Sample.stack
                Sample.symbolic_hash Sample.counter_cnonce Sample.cfg Sample.forwarded
                Sample.challenge_401 _ "sip.twilio.com" "abc123"
                eq_refl eq_refl eq_refl eq_refl) as [_ Hnew].
    destruct Hnew as (_ & Hnc & _); [vm_compute; discriminate | exact Hnc].
  - destruct (nonce_count_transition Sample.stack
                Sample.symbolic_hash Sample.counter_cnonce Sample.cfg
                (store_of (@defaultProxyCallback Sample.stack Sample.cfg
                             Sample.challenge_401 Sample.forwarded))
                Sample.challenge_401 _ "sip.twilio.com" "abc123"
                eq_refl eq_refl eq_refl eq_refl) as [Hreuse _].
    destruct Hreuse as (Hnc & _); [reflexivity | exact Hnc].
Defined.

(** C4 at its failing input: a 401 whose challenge has no nonce.  The digest
    transition throws; the callback has logged one line, has passed nothing
    to [proxy.send] (no resend, but no server-error response either), and
    the exception leaves the callback. *)
Theorem challenge_without_nonce_unanswered :
  @defaultProxyCallback Sample.stack Sample.cfg Sample.challenge_without_nonce
    Sample.forwarded
  = ([console_log "[gateway] Received challenge from Twilio, signing request..."],
     Sample.forwarded,
     Throw "digest challenge without realm or nonce").
Proof. vm_compute. reflexivity. Qed.

(** * Further properties of the code *)

(** ** rewriteSdp: what the rewrite leaves alone and what it drops *)

(** X1.  The rewrite keeps the session-level fields, the number and order
    of the media descriptions, and each one's type and untouched
    properties; the descriptions that are not audio come out exactly as
    they went in. *)
Theorem rewriteSession_frame (parsed : Session) :
  session_rest (rewriteSession parsed) = session_rest parsed /\
  map type (media (rewriteSession parsed)) = map type (media parsed) /\
  map media_rest (media (rewriteSession parsed)) = map media_rest (media parsed) /\
  filter (fun m => negb (strict_eq (type m) (JStr "audio")))
         (media (rewriteSession parsed))
  = filter (fun m => negb (strict_eq (type m) (JStr "audio"))) (media parsed).
Proof.
  unfold rewriteSession. cbn [media session_rest].
  split; [reflexivity|].
  induction (media parsed) as [|m ms IH]; [now repeat split|].
  destruct IH as (IHt & IHr & IHf). cbn [map filter].
  assert (Ht : type (rewriteMedia m) = type m).
  { unfold rewriteMedia. now destruct (strict_eq (type m) (JStr "audio")). }
  assert (Hr : media_rest (rewriteMedia m) = media_rest m).
  { unfold rewriteMedia. now destruct (strict_eq (type m) (JStr "audio")). }
  rewrite Ht, Hr, IHt, IHr. repeat split.
  destruct (strict_eq (type m) (JStr "audio")) eqn:E; cbn [negb].
  - exact IHf.
  - f_equal; [|exact IHf]. unfold rewriteMedia. now rewrite E.
Qed.

(** X2.  In an audio description the [a=rtcp] attribute is dropped; every
    format parameter entry left is for payload 0, 8 or 101 (read through
    [parseInt]); no rtp or fmtp entry for an allowed payload is lost; and
    each list grows by at most the one synthesized entry. *)
Theorem rewriteMedia_audio_entries (m : Media) :
  type m = JStr "audio" ->
  let fmtp_in := match fmtp m with Some fs => fs | None => [] end in
  let fmtp_out := match fmtp (rewriteMedia m) with Some fs => fs | None => [] end in
  rtcp (rewriteMedia m) = None /\
  (forall f, In f fmtp_out ->
     parseInt (fmtp_payload f) = JNum 0 \/ parseInt (fmtp_payload f) = JNum 8
     \/ parseInt (fmtp_payload f) = JNum 101) /\
  (forall r, In r (rtp m) ->
     rtp_payload r = JNum 0 \/ rtp_payload r = JNum 8 \/ rtp_payload r = JNum 101 ->
     In r (rtp (rewriteMedia m))) /\
  (forall f, In f fmtp_in ->
     parseInt (fmtp_payload f) = JNum 0 \/ parseInt (fmtp_payload f) = JNum 8
     \/ parseInt (fmtp_payload f) = JNum 101 ->
     In f fmtp_out) /\
  (List.length (rtp (rewriteMedia m)) <= List.length (rtp m) + 1)%nat /\
  (List.length fmtp_out <= List.length fmtp_in + 1)%nat.
Proof.
  intro Haudio. cbv zeta. unfold rewriteMedia.
  rewrite (proj2 (strict_eq_JStr (type m) "audio") Haudio).
  cbn [rtcp fmtp rtp].
  assert (Hlen : forall A (p q : A -> bool) (x : A) (xs : list A),
             (List.length (push_unless_found p x (filter q xs))
              <= List.length xs + 1)%nat).
  { intros A p q x xs. unfold push_unless_found.
    pose proof (filter_length_le q xs) as Hle.
    destruct (find p (filter q xs)); [lia|].
    rewrite length_app. simpl. lia. }
  split; [reflexivity|]. split; [|split; [|split; [|split]]].
  - intros f Hf. apply push_unless_found_In in Hf.
    destruct Hf as [Hf|[-> _]]; [|now right; right].
    apply filter_In in Hf. now apply includes_allowedPayloads.
  - intros r Hr Hallowed. apply push_unless_found_In. left.
    apply filter_In. split; [exact Hr | now apply includes_allowedPayloads].
  - intros f Hf Hallowed. apply push_unless_found_In. left.
    apply filter_In. split; [exact Hf | now apply includes_allowedPayloads].
  - apply Hlen.
  - apply Hlen.
Qed.

Lemma rewriteMedia_audio_entries_sample :
  type Sample.offer_audio = JStr "audio" /\
  rtcp (rewriteMedia Sample.offer_audio) = None /\
  In (mkRtp (JNum 0) (JStr "PCMU") (JNum 8000) JUndefined)
     (rtp (rewriteMedia Sample.offer_audio)).
Proof.
  split; [reflexivity|].
  destruct (rewriteMedia_audio_entries Sample.offer_audio eq_refl)
    as (Hrtcp & _ & Hkept & _).
  split; [exact Hrtcp|].
  apply Hkept; [right; left; reflexivity | left; reflexivity].
Defined.

(** ** onIncomingRequest: every path through the handler *)

Lemma sent_with_callback_app (t u : Trace) :
  sent_with_callback (t ++ u)%list
  = (sent_with_callback t ++ sent_with_callback u)%list.
Proof.
  induction t as [|e t IH]; simpl; [reflexivity|].
  destruct e as [| | |m [cb|]]; simpl; now rewrite IH.
Qed.

Section HandlerPaths.

Context {stack : SipStack}.

(** The two ways [rewriteSdp] ends: silently with what [write] printed, or
    with one warning and the body it was given. *)
Lemma rewriteSdp_outcomes {S : Type} (c : string) (st : S) :
  (exists p out, sdp_parse c = Ok p /\ sdp_write (rewriteSession p) = Ok out /\
                 rewriteSdp c st = ([], st, Ok out)) \/
  (exists e, (sdp_parse c = Throw e \/
              exists p, sdp_parse c = Ok p /\ sdp_write (rewriteSession p) = Throw e) /\
             rewriteSdp c st
             = ([console_warn "[gateway] Failed to parse SDP:" e], st, Ok c)).
Proof.
  destruct (sdp_parse c) as [p|e] eqn:Hp.
  - destruct (sdp_write (rewriteSession p)) as [out|e] eqn:Hw.
    + left. exists p, out. repeat split; try assumption.
      exact (rewriteSdp_written c st p out Hp Hw).
    + right. exists e. split; [right; now exists p|].
      exact (rewriteSdp_write_throws c st p e Hp Hw).
  - right. exists e. split; [now left|].
    exact (rewriteSdp_parse_throws c st e Hp).
Qed.

(** Lines 93-97 in full: either the block is skipped, or body and
    [content-length] are both assigned from what [rewriteSdp] returned. *)
Lemma rewrite_body_form (st : Store) :
  exists tb r1,
    rewrite_body st = (tb, with_rq st r1, Ok tt) /\
    sent_requests tb = [] /\ sent_responses tb = [] /\ sent_with_callback tb = [] /\
    ((tb = [] /\ r1 = rq st /\
      (content (rq st) = None \/ content (rq st) = Some "")) \/
     (exists c newSdp,
         content (rq st) = Some c /\ c <> "" /\
         rewriteSdp c st = (tb, st, Ok newSdp) /\
         r1 = set_headers
                (set_content_length
                   (JStr (Number_toString (Buffer_byteLength newSdp))))
                (set_content newSdp (rq st)))).
Proof.
  unfold rewrite_body, get_rq, bind, get, ret. simpl.
  destruct (content (rq st)) as [c|] eqn:Hc.
  - destruct (String.eqb_spec c "") as [->|Hne]; simpl.
    + exists [], (rq st). rewrite with_rq_same. repeat split. left. auto.
    + assert (Hrun : exists t newSdp,
                 rewriteSdp c st = (t, st, Ok newSdp) /\
                 sent_requests t = [] /\ sent_responses t = [] /\
                 sent_with_callback t = []).
      { destruct (rewriteSdp_outcomes c st)
          as [(p & out & _ & _ & H)|(e & _ & H)]; rewrite H;
          eexists _, _; now repeat split. }
      destruct Hrun as (t & newSdp & Hrun & H1 & H2 & H3).
      unfold bind. rewrite Hrun. unfold set_rq, modify. simpl.
      exists t,
        (set_headers
           (set_content_length (JStr (Number_toString (Buffer_byteLength newSdp))))
           (set_content newSdp (rq st))).
      split; [rewrite ?app_nil_r; reflexivity|].
      repeat split; try assumption.
      right. exists c, newSdp. now repeat split.
  - exists [], (rq st). rewrite with_rq_same. repeat split. left. auto.
Qed.

Variable cfg : Config.

(** The INVITE branch with the body block spelled out. *)
Lemma invite_run (st : Store) :
  method (rq st) = "INVITE" ->
  exists tb r1,
    rewrite_body st = (tb, with_rq st r1, Ok tt) /\
    store_of (onIncomingRequest cfg st) = with_rq st (retarget cfg r1) /\
    exists log tail,
      trace_of (onIncomingRequest cfg st)
      = (log :: tb
         ++ proxy_send (MRequest (retarget cfg r1)) (Some defaultProxyCallback_closure)
         :: tail)%list /\
      sent_requests [log] = [] /\ sent_responses [log] = [] /\
      sent_with_callback [log] = [] /\
      sent_requests tail = [] /\ sent_with_callback tail = [] /\
      tail = match proxy_send_throws (MRequest (retarget cfg r1)) with
             | Some e =>
                 [console_error "[gateway] Error processing request:" e;
                  proxy_send
                    (MResponse (sip_makeResponse (retarget cfg r1) 500 "Server Error"))
                    None]
             | None => []
             end /\
      result_of (onIncomingRequest cfg st)
      = match proxy_send_throws (MRequest (retarget cfg r1)) with
        | Some _ =>
            match proxy_send_throws
                    (MResponse (sip_makeResponse (retarget cfg r1) 500 "Server Error")) with
            | Some e' => Throw e'
            | None => Ok tt
            end
        | None => Ok tt
        end.
Proof.
  intro Hm.
  destruct (onIncomingRequest_invite cfg st Hm) as (tb & r1 & Hbody & Hrun).
  exists tb, r1. split; [exact Hbody|].
  cbv zeta in Hrun. fold (retarget cfg r1) in Hrun. rewrite Hrun.
  unfold store_of, trace_of, result_of. cbn [fst snd].
  split; [reflexivity|].
  eexists _, _. split; [reflexivity|].
  repeat split; now destruct (proxy_send_throws (MRequest (retarget cfg r1))).
Qed.

End HandlerPaths.

Lemma method_cases (m : string) :
  m = "INVITE" \/
  ((m =? "INVITE")%string = false /\ in_dialog_method m = true) \/
  ((m =? "INVITE")%string = false /\ in_dialog_method m = false).
Proof.
  destruct (String.eqb_spec m "INVITE") as [->|_]; [now left|].
  right. destruct (in_dialog_method m); [left | right]; now split.
Qed.

(** X3.  Whatever the request, the handler makes one call of [proxy.send]
    and, if that call returns, nothing after it.  If the call throws, the
    handler logs the error and passes a 500 "Server Error" response, built
    from the request as it then stands, to [proxy.send]; an exception
    leaves the handler only when that second call throws too. *)
Theorem handler_answers_every_request {stack : SipStack} (cfg : Config) (st : Store) :
  exists pre msg cb,
    sent_requests pre = [] /\ sent_responses pre = [] /\
    match proxy_send_throws msg with
    | None =>
        trace_of (onIncomingRequest cfg st) = (pre ++ [proxy_send msg cb])%list /\
        result_of (onIncomingRequest cfg st) = Ok tt
    | Some e =>
        trace_of (onIncomingRequest cfg st)
        = (pre ++ [proxy_send msg cb;
                   console_error "[gateway] Error processing request:" e;
                   proxy_send
                     (MResponse
                        (sip_makeResponse (rq (store_of (onIncomingRequest cfg st)))
                           500 "Server Error"))
                     None])%list /\
        result_of (onIncomingRequest cfg st)
        = match proxy_send_throws
                  (MResponse
                     (sip_makeResponse (rq (store_of (onIncomingRequest cfg st)))
                        500 "Server Error")) with
          | Some e' => Throw e'
          | None => Ok tt
          end
    end.
Proof.
  destruct (method_cases (method (rq st))) as [Hm|[[Hi Hd]|[Hi Hd]]].
  - destruct (invite_run cfg st Hm)
      as (tb & r1 & Hbody & Hstore & log & tail & Htrace & Hl1 & Hl2 & _ & _ & _
          & Htail & Hres).
    destruct (rewrite_body_form st) as (tb' & r1' & Hbody' & Hb1 & Hb2 & _).
    rewrite Hbody in Hbody'. injection Hbody' as <- <-.
    exists (log :: tb), (MRequest (retarget cfg r1)), (Some defaultProxyCallback_closure).
    split; [change (log :: tb) with ([log] ++ tb)%list;
            now rewrite sent_requests_app, Hl1, Hb1|].
    split; [change (log :: tb) with ([log] ++ tb)%list;
            now rewrite sent_responses_app, Hl2, Hb2|].
    rewrite Htrace, Hres, Hstore, Htail. cbn [rq with_rq].
    now destruct (proxy_send_throws (MRequest (retarget cfg r1))).
  - pose proof (onIncomingRequest_in_dialog cfg st Hi Hd) as Hrun. cbv zeta in Hrun.
    exists [], (MRequest (rq st)), None. rewrite Hrun.
    unfold trace_of, result_of, store_of. cbn [fst snd app].
    now destruct (proxy_send_throws (MRequest (rq st))).
  - pose proof (onIncomingRequest_other cfg st Hi Hd) as Hrun. cbv zeta in Hrun.
    exists [], (MResponse (sip_makeResponse (rq st) 405 "Method Not Allowed")), None.
    rewrite Hrun. unfold trace_of, result_of, store_of. cbn [fst snd app].
    now destruct (proxy_send_throws (MResponse _)).
Qed.

(** X4.  The handler never touches the digest session or the random
    source, never changes the request's method, its From header, its
    authentication headers or the headers it does not name; and a request
    that is not an INVITE is left exactly as it arrived, also on the error
    path. *)
Theorem handler_writes_only_routing_fields {stack : SipStack} (cfg : Config)
    (st : Store) :
  sessionTwilio (store_of (onIncomingRequest cfg st)) = sessionTwilio st /\
  rng (store_of (onIncomingRequest cfg st)) = rng st /\
  method (rq (store_of (onIncomingRequest cfg st))) = method (rq st) /\
  h_from (headers (rq (store_of (onIncomingRequest cfg st))))
  = h_from (headers (rq st)) /\
  h_www_authenticate (headers (rq (store_of (onIncomingRequest cfg st))))
  = h_www_authenticate (headers (rq st)) /\
  h_proxy_authenticate (headers (rq (store_of (onIncomingRequest cfg st))))
  = h_proxy_authenticate (headers (rq st)) /\
  h_authorization (headers (rq (store_of (onIncomingRequest cfg st))))
  = h_authorization (headers (rq st)) /\
  h_proxy_authorization (headers (rq (store_of (onIncomingRequest cfg st))))
  = h_proxy_authorization (headers (rq st)) /\
  h_other (headers (rq (store_of (onIncomingRequest cfg st))))
  = h_other (headers (rq st)) /\
  (method (rq st) <> "INVITE" -> store_of (onIncomingRequest cfg st) = st).
Proof.
  destruct (method_cases (method (rq st))) as [Hm|[[Hi Hd]|[Hi Hd]]].
  - destruct (invite_run cfg st Hm) as (tb & r1 & Hbody & Hstore & _).
    destruct (rewrite_body_form st)
      as (tb' & r1' & Hbody' & _ & _ & _ & [(_ & Hr & _)|(c & newSdp & _ & _ & _ & Hr)]);
      rewrite Hbody in Hbody'; injection Hbody' as _ <-;
      rewrite Hstore, Hr; repeat split; now intros [].
  - pose proof (onIncomingRequest_in_dialog cfg st Hi Hd) as Hrun. cbv zeta in Hrun.
    rewrite Hrun. unfold store_of. cbn [fst snd]. now repeat split.
  - pose proof (onIncomingRequest_other cfg st Hi Hd) as Hrun. cbv zeta in Hrun.
    rewrite Hrun. unfold store_of. cbn [fst snd]. now repeat split.
Qed.

(** X5.  The INVITE is forwarded with exactly one Contact entry, whatever
    Contact it arrived with: [sip:META_SIP_USERNAME@PUBLIC_IP], with the
    host [example.com] when [PUBLIC_IP] is not set or empty. *)
Theorem invite_contact_replaced {stack : SipStack} (cfg : Config) (st : Store) :
  method (rq st) = "INVITE" ->
  exists r' host,
    sent_requests (trace_of (onIncomingRequest cfg st)) = [r'] /\
    h_contact (headers r')
    = Some [ {| na_name := JUndefined;
                na_uri := JStr ("sip:" ++ META_USER cfg ++ "@" ++ host);
                na_params := None |} ] /\
    (PUBLIC_IP cfg = None \/ PUBLIC_IP cfg = Some "" -> host = "example.com") /\
    (forall ip, PUBLIC_IP cfg = Some ip -> ip <> "" -> host = ip).
Proof.
  intro Hm.
  destruct (invite_forwarded cfg st Hm) as (tb & r1 & _ & Hsent & _).
  cbv zeta in Hsent.
  eexists _, (match PUBLIC_IP cfg with
              | Some ip => if (ip =? "")%string then "example.com" else ip
              | None => "example.com"
              end).
  split; [exact Hsent|]. split; [reflexivity|]. split.
  - intros [->| ->]; reflexivity.
  - intros ip -> Hne. now destruct (String.eqb_spec ip "").
Qed.

Lemma invite_contact_replaced_sample :
  method (rq (Sample.store Sample.invite)) = "INVITE" /\
  exists r',
    sent_requests (trace_of (@onIncomingRequest Sample.stack Sample.cfg
                               (Sample.store Sample.invite))) = [r'] /\
    h_contact (headers r')
    = Some [ {| na_name := JUndefined; na_uri := JStr "sip:1234567890@example.com";
                na_params := None |} ].
Proof.
  split; [reflexivity|].
  destruct (@invite_contact_replaced Sample.stack Sample.cfg
              (Sample.store Sample.invite) eq_refl)
    as (r' & host & Hsent & Hcontact & Hdefault & _).
  exists r'. split; [exact Hsent|].
  rewrite Hcontact, (Hdefault (or_introl eq_refl)). reflexivity.
Defined.

(** X6.  Fail-open, end to end: when [sdpTransform.parse] or
    [sdpTransform.write] throws on the body of an INVITE, the INVITE is
    still forwarded, retargeted, with the body it arrived with; one
    warning is logged; and [content-length] is nevertheless overwritten,
    with the byte length of that body as a decimal string. *)
Theorem invite_forwarded_when_sdp_fails {stack : SipStack} (cfg : Config)
    (st : Store) (c : string) (e : Exn) :
  method (rq st) = "INVITE" ->
  content (rq st) = Some c -> c <> "" ->
  (sdp_parse c = Throw e \/
   exists p, sdp_parse c = Ok p /\ sdp_write (rewriteSession p) = Throw e) ->
  exists r',
    sent_requests (trace_of (onIncomingRequest cfg st)) = [r'] /\
    content r' = Some c /\
    h_content_length (headers r') = JStr (Number_toString (Buffer_byteLength c)) /\
    uri r' = JStr (destUri cfg) /\
    In (console_warn "[gateway] Failed to parse SDP:" e)
       (trace_of (onIncomingRequest cfg st)).
Proof.
  intros Hm Hc Hne Hfail.
  assert (Hsdp : rewriteSdp c st
                 = ([console_warn "[gateway] Failed to parse SDP:" e], st, Ok c)).
  { destruct Hfail as [Hp|(p & Hp & Hw)].
    - exact (rewriteSdp_parse_throws c st e Hp).
    - exact (rewriteSdp_write_throws c st p e Hp Hw). }
  destruct (invite_forwarded cfg st Hm) as (tb & r1 & Hbody & Hsent & _).
  destruct (invite_run cfg st Hm) as (tb2 & r2 & Hbody2 & _ & log & tail & Htrace & _).
  rewrite Hbody in Hbody2. injection Hbody2 as <- <-.
  destruct (rewrite_body_form st)
    as (tb' & r1' & Hbody' & _ & _ & _ & [(_ & _ & [Hn|Hn])|(c' & newSdp & Hc' & _ & Hrun & Hr)]);
    rewrite Hbody in Hbody'; injection Hbody' as <- <-.
  - rewrite Hc in Hn. discriminate.
  - rewrite Hc in Hn. injection Hn as ->. now elim Hne.
  - rewrite Hc in Hc'. injection Hc' as <-.
    rewrite Hsdp in Hrun. injection Hrun as <- <-.
    cbv zeta in Hsent. eexists. split; [exact Hsent|].
    rewrite Hr, Htrace. repeat split.
    right. left. reflexivity.
Qed.

Lemma invite_forwarded_when_sdp_fails_sample :
  exists r',
    sent_requests (trace_of (@onIncomingRequest Sample.strict_stack Sample.cfg
                               (Sample.store Sample.invite_truncated))) = [r'] /\
    content r' = Some Sample.truncated_sdp /\
    h_content_length (headers r') = JStr "47".
Proof.
  destruct (@invite_forwarded_when_sdp_fails Sample.strict_stack Sample.cfg
              (Sample.store Sample.invite_truncated) Sample.truncated_sdp
              "SDP parse error" eq_refl eq_refl)
    as (r' & Hsent & Hc & Hl & _).
  - discriminate.
  - left. reflexivity.
  - exists r'. split; [exact Hsent|]. split; [exact Hc | exact Hl].
Defined.







(** ** defaultProxyCallback: every response *)

Section CallbackPaths.

Context {stack : SipStack}.
Variable cfg : Config.

(** The other branch (line 122), run to its end. *)
Lemma defaultProxyCallback_relay (rs : Response) (st : Store) :
  is_challenge rs = false ->
  defaultProxyCallback cfg rs st
  = ([proxy_send (MResponse rs) None], st,
     match proxy_send_throws (MResponse rs) with
     | Some e => Throw e
     | None => Ok tt
     end).
Proof.
  intro H. unfold defaultProxyCallback. rewrite H.
  cbv beta iota delta [proxy_send_call bind emit lift_result ret app].
  now destruct (proxy_send_throws (MResponse rs)).
Qed.

Lemma defaultProxyCallback_no_callback (rs : Response) (st : Store) :
  sent_with_callback (trace_of (defaultProxyCallback cfg rs st)) = [].
Proof.
  destruct (is_challenge rs) eqn:H.
  - rewrite (defaultProxyCallback_challenge cfg rs st H).
    now destruct (digest_signRequest _ _ _ _ _) as [[[g session] r]|e].
  - now rewrite (defaultProxyCallback_relay rs st H).
Qed.

Lemma deliver_no_callback (rss : list Response) (st : Store) :
  sent_with_callback (trace_of (deliver cfg rss st)) = [].
Proof.
  revert st. induction rss as [|rs rest IH]; intro st; [reflexivity|].
  rewrite deliver_cons.
  pose proof (defaultProxyCallback_no_callback rs st) as H.
  destruct (defaultProxyCallback cfg rs st) as [[t s1] [[]|e]].
  - pose proof (IH s1) as H1.
    destruct (deliver cfg rest s1) as [[t' s2] r].
    unfold trace_of in *. cbn [fst snd] in *.
    now rewrite sent_with_callback_app, H, H1.
  - exact H.
Qed.

Lemma deliver_relays (rss : list Response) :
  forall st,
    result_of (deliver cfg rss st) = Ok tt ->
    sent_responses (trace_of (deliver cfg rss st))
    = filter (fun rs => negb (is_challenge rs)) rss /\
    List.length (sent_requests (trace_of (deliver cfg rss st)))
    = List.length (filter is_challenge rss) /\
    (forallb (fun rs => negb (is_challenge rs)) rss = true ->
     store_of (deliver cfg rss st) = st).
Proof.
  induction rss as [|rs rest IH]; intros st Hok; [now repeat split|].
  rewrite deliver_cons in Hok |- *. cbn [filter forallb].
  destruct (is_challenge rs) eqn:Hrs; cbn [negb andb].
  - pose proof (challenge_not_answered cfg rs st Hrs) as Hno.
    pose proof (challenge_resent cfg rs st Hrs) as Hre.
    destruct (defaultProxyCallback cfg rs st) as [[t s1] [[]|e]];
      [|discriminate Hok].
    specialize (IH s1).
    destruct (deliver cfg rest s1) as [[t' s2] r].
    unfold trace_of, result_of, store_of in *. cbn [fst snd] in *.
    destruct (IH Hok) as (IH1 & IH2 & _).
    rewrite sent_responses_app, sent_requests_app, length_app, Hno, (Hre eq_refl),
      IH1, IH2.
    repeat split. discriminate.
  - rewrite (defaultProxyCallback_relay rs st Hrs) in Hok |- *.
    destruct (proxy_send_throws (MResponse rs)); [discriminate Hok|].
    specialize (IH st).
    destruct (deliver cfg rest st) as [[t' s2] r].
    unfold trace_of, result_of, store_of in *. cbn [fst snd app] in *.
    destruct (IH Hok) as (IH1 & IH2 & IH3).
    cbn [sent_responses sent_requests]. rewrite IH1, IH2. now repeat split.
Qed.

End CallbackPaths.

(** X8.  The response callback is attached to the forwarded INVITE and to
    nothing else: the handler passes it with the INVITE it forwards and
    with no other message, and the callback itself never passes one, so a
    resent request goes out without it. *)
Theorem callback_attached_only_to_invite {stack : SipStack} (cfg : Config)
    (st : Store) (rss : list Response) :
  sent_with_callback (trace_of (onIncomingRequest cfg st))
  = (if (method (rq st) =? "INVITE")%string
     then map MRequest (sent_requests (trace_of (onIncomingRequest cfg st)))
     else []) /\
  sent_with_callback (trace_of (deliver cfg rss st)) = [].
Proof.
  split; [|apply deliver_no_callback].
  destruct (method_cases (method (rq st))) as [Hm|[[Hi Hd]|[Hi Hd]]].
  - rewrite Hm. cbn [String.eqb].
    destruct (invite_forwarded cfg st Hm) as (tb & r1 & Hbody & Hsent & _).
    cbv zeta in Hsent. rewrite Hsent.
    destruct (invite_run cfg st Hm)
      as (tb0 & r0 & Hbody0 & _ & log & tail & Htrace & _ & _ & Hl & _ & Ht & _).
    rewrite Hbody in Hbody0. injection Hbody0 as <- <-.
    destruct (rewrite_body_form st) as (tb1 & r1' & Hbody1 & _ & _ & Hb & _).
    rewrite Hbody in Hbody1. injection Hbody1 as <- <-.
    rewrite Htrace. change (log :: tb ++ ?x :: tail)%list
      with ([log] ++ tb ++ [x] ++ tail)%list.
    rewrite !sent_with_callback_app, Hl, Hb, Ht. reflexivity.
  - rewrite Hi.
    pose proof (onIncomingRequest_in_dialog cfg st Hi Hd) as Hrun. cbv zeta in Hrun.
    rewrite Hrun. unfold trace_of. cbn [fst].
    now destruct (proxy_send_throws (MRequest (rq st))).
  - rewrite Hi.
    pose proof (onIncomingRequest_other cfg st Hi Hd) as Hrun. cbv zeta in Hrun.
    rewrite Hrun. unfold trace_of. cbn [fst].
    now destruct (proxy_send_throws (MResponse _)).
Qed.

(** X9.  Over any sequence of responses handed to the callback from which
    no exception escapes: the responses passed on to [proxy.send] are
    exactly the ones whose status is neither 401 nor 407, in their order
    and unchanged; the request is resent once per 401/407; and when the
    sequence holds no challenge the digest session and the request are
    left as they were. *)
Theorem callback_relays_other_responses {stack : SipStack} (cfg : Config)
    (rss : list Response) (st : Store) :
  result_of (deliver cfg rss st) = Ok tt ->
  sent_responses (trace_of (deliver cfg rss st))
  = filter (fun rs => negb ((status rs =? 401) || (status rs =? 407))) rss /\
  List.length (sent_requests (trace_of (deliver cfg rss st)))
  = List.length (filter (fun rs => (status rs =? 401) || (status rs =? 407)) rss) /\
  (forallb (fun rs => negb ((status rs =? 401) || (status rs =? 407))) rss = true ->
   store_of (deliver cfg rss st) = st).
Proof.
  intro Hok. exact (deliver_relays cfg rss st Hok).
Qed.

Lemma callback_relays_other_responses_sample :
  sent_responses
    (trace_of (@deliver Sample.stack Sample.cfg
                 [Sample.ringing_180; Sample.challenge_401; Sample.ok_200]
                 Sample.forwarded))
  = [Sample.ringing_180; Sample.ok_200] /\
  List.length
    (sent_requests
       (trace_of (@deliver Sample.stack Sample.cfg
                    [Sample.ringing_180; Sample.challenge_401; Sample.ok_200]
                    Sample.forwarded)))
  = 1%nat.
Proof.
  destruct (@callback_relays_other_responses Sample.stack Sample.cfg
              [Sample.ringing_180; Sample.challenge_401; Sample.ok_200]
              Sample.forwarded eq_refl) as (Hrs & Hrq & _).
  split; [exact Hrs | exact Hrq].
Defined.

(** ** Configuration *)

Lemma toLowerCase_char_t (c : ascii) :
  toLowerCase_char c = "t"%char <-> c = "t"%char \/ c = "T"%char.
Proof.
  destruct c as [[] [] [] [] [] [] [] []]; vm_compute;
    (split; [intro H; first [discriminate H | now left | now right]
            | intros [H|H]; first [discriminate H | reflexivity]]).
Qed.

Lemma toLowerCase_char_r (c : ascii) :
  toLowerCase_char c = "r"%char <-> c = "r"%char \/ c = "R"%char.
Proof.
  destruct c as [[] [] [] [] [] [] [] []]; vm_compute;
    (split; [intro H; first [discriminate H | now left | now right]
            | intros [H|H]; first [discriminate H | reflexivity]]).
Qed.

Lemma toLowerCase_char_u (c : ascii) :
  toLowerCase_char c = "u"%char <-> c = "u"%char \/ c = "U"%char.
Proof.
  destruct c as [[] [] [] [] [] [] [] []]; vm_compute;
    (split; [intro H; first [discriminate H | now left | now right]
            | intros [H|H]; first [discriminate H | reflexivity]]).
Qed.

Lemma toLowerCase_char_e (c : ascii) :
  toLowerCase_char c = "e"%char <-> c = "e"%char \/ c = "E"%char.
Proof.
  destruct c as [[] [] [] [] [] [] [] []]; vm_compute;
    (split; [intro H; first [discriminate H | now left | now right]
            | intros [H|H]; first [discriminate H | reflexivity]]).
Qed.

(** X10.  TLS is switched on exactly when the variable [USE_TLS] is set to
    the word "true" in any mix of upper and lower case; unset, empty or
    anything else (also "1", "yes", or "true" with surrounding blanks)
    leaves it off. *)
Theorem USE_TLS_spellings (env_USE_TLS : option string) :
  USE_TLS env_USE_TLS = true <->
  exists c1 c2 c3 c4 : ascii,
    env_USE_TLS = Some (String c1 (String c2 (String c3 (String c4 "")))) /\
    (c1 = "t" \/ c1 = "T")%char /\ (c2 = "r" \/ c2 = "R")%char /\
    (c3 = "u" \/ c3 = "U")%char /\ (c4 = "e" \/ c4 = "E")%char.
Proof.
  unfold USE_TLS. split.
  - intro H. apply String.eqb_eq in H.
    destruct env_USE_TLS as [v|]; [|discriminate H].
    destruct v as [|c1 [|c2 [|c3 [|c4 [|c5 v]]]]];
      cbn [String.eqb toLowerCase] in H; try discriminate H.
    injection H as H1 H2 H3 H4.
    exists c1, c2, c3, c4. split; [reflexivity|].
    repeat split;
      [now apply toLowerCase_char_t | now apply toLowerCase_char_r
       | now apply toLowerCase_char_u | now apply toLowerCase_char_e].
  - intros (c1 & c2 & c3 & c4 & -> & H1 & H2 & H3 & H4).
    apply toLowerCase_char_t in H1. apply toLowerCase_char_r in H2.
    apply toLowerCase_char_u in H3. apply toLowerCase_char_e in H4.
    cbn [String.eqb toLowerCase]. rewrite H1, H2, H3, H4. reflexivity.
Qed.

(** ** parseInt on numerals *)

(** No white space is skipped in front of an ASCII character that is not
    white space. *)
Lemma skip_ws_ascii (c : ascii) (r : string) :
  (byte c <? 128)%N = true -> ws1 (byte c) = false ->
  skip_ws (String c r) = String c r.
Proof.
  intros Hlt Hws. cbn [skip_ws]. rewrite Hws.
  apply N.ltb_lt in Hlt.
  assert (H2 : forall b, ws2 (byte c) b = false).
  { intro b. unfold ws2. destruct (N.eqb_spec (byte c) 194); [lia | reflexivity]. }
  assert (H3 : forall b b', ws3 (byte c) b b' = false).
  { intros b b'. unfold ws3.
    destruct (N.eqb_spec (byte c) 225); [lia|].
    destruct (N.eqb_spec (byte c) 226); [lia|].
    destruct (N.eqb_spec (byte c) 227); [lia|].
    destruct (N.eqb_spec (byte c) 239); [lia|]. reflexivity. }
  destruct r as [|c2 [|c3 r3]]; [reflexivity | now rewrite H2 |].
  now rewrite H2, H3.
Qed.

Lemma skip_ws_numeral (d : Decimal.uint) :
  skip_ws (NilEmpty.string_of_uint d) = NilEmpty.string_of_uint d.
Proof.
  destruct d; cbn [NilEmpty.string_of_uint];
    [reflexivity | apply skip_ws_ascii; reflexivity ..].
Qed.

(** Reading the digits of a numeral continues the accumulator as
    [Pos.of_uint_acc] does. *)
Lemma digits_numeral_acc (d : Decimal.uint) :
  forall acc : positive,
    digits 10 (NilEmpty.string_of_uint d) (Some (Z.pos acc))
    = Some (Z.pos (Pos.of_uint_acc d acc)).
Proof.
  induction d; intro acc; cbn [NilEmpty.string_of_uint Pos.of_uint_acc digits];
    [reflexivity|..];
    (match goal with
     | |- context [digit_of 10 ?c] =>
         let v := eval vm_compute in (digit_of 10 c) in
         change (digit_of 10 c) with v
     end;
     cbv beta iota;
     match goal with
     | |- digits 10 _ (Some ?z) = _ =>
         match goal with
         | |- _ = Some (Z.pos (Pos.of_uint_acc _ ?q)) =>
             replace z with (Z.pos q) by lia
         end
     end;
     apply IHd).
Qed.

Lemma digits_numeral_zero (d : Decimal.uint) :
  digits 10 (NilEmpty.string_of_uint d) (Some 0)
  = Some (Z.of_N (Pos.of_uint d)).
Proof.
  induction d; cbn [NilEmpty.string_of_uint Pos.of_uint digits];
    [reflexivity|..];
    match goal with
    | |- context [digit_of 10 ?c] =>
        let v := eval vm_compute in (digit_of 10 c) in
        change (digit_of 10 c) with v
    end;
    cbv beta iota; cbn [Z.mul Z.add Z.of_N];
    first [exact IHd | apply digits_numeral_acc].
Qed.

(** The digits of a numeral that is not empty, read from the start. *)
Lemma digits_numeral (d : Decimal.uint) :
  d <> Decimal.Nil ->
  digits 10 (NilEmpty.string_of_uint d) None
  = Some (Z.of_N (Pos.of_uint d)).
Proof.
  intro Hd. rewrite <- digits_numeral_zero.
  destruct d; [now elim Hd | reflexivity ..].
Qed.

Lemma parseInt_numeral (d : Decimal.uint) :
  d <> Decimal.Nil ->
  parseInt_string (NilEmpty.string_of_uint d) = JNum (Z.of_N (Pos.of_uint d)) /\
  parseInt_string (String "-" (NilEmpty.string_of_uint d))
  = JNum (- Z.of_N (Pos.of_uint d)).
Proof.
  intro Hd. split.
  - unfold parseInt_string. rewrite skip_ws_numeral.
    pose proof (digits_numeral d Hd) as Hdig.
    destruct d as [|d'|d'|d'|d'|d'|d'|d'|d'|d'|d']; [now elim Hd|..];
      try (cbn [NilEmpty.string_of_uint] in Hdig |- *; cbv beta iota;
           rewrite Hdig; f_equal; lia).
    destruct d'; cbn [NilEmpty.string_of_uint] in Hdig |- *; cbv beta iota;
      rewrite Hdig; f_equal; lia.
  - unfold parseInt_string.
    rewrite (skip_ws_ascii "-" (NilEmpty.string_of_uint d) eq_refl eq_refl).
    pose proof (digits_numeral d Hd) as Hdig.
    cbv beta iota.
    destruct d as [|d'|d'|d'|d'|d'|d'|d'|d'|d'|d']; [now elim Hd|..];
      try (cbn [NilEmpty.string_of_uint] in Hdig |- *; cbv beta iota;
           rewrite Hdig; f_equal; lia).
    destruct d'; cbn [NilEmpty.string_of_uint] in Hdig |- *; cbv beta iota;
      rewrite Hdig; f_equal; lia.
Qed.

Lemma to_uint_not_nil (p : positive) : Pos.to_uint p <> Decimal.Nil.
Proof.
  intro H. pose proof (DecimalPos.Unsigned.of_to p) as Hp.
  rewrite H in Hp. discriminate Hp.
Qed.

Lemma parseInt_Number_toString (n : Z) :
  parseInt_string (Number_toString n) = JNum n.
Proof.
  unfold Number_toString. destruct n as [|p|p]; [reflexivity|..];
    cbn [Z.to_int NilZero.string_of_int]; unfold NilZero.string_of_uint;
    pose proof (to_uint_not_nil p) as Hnil;
    pose proof (DecimalPos.Unsigned.of_to p) as Hp;
    destruct (parseInt_numeral (Pos.to_uint p) Hnil) as [Hpos Hneg];
    destruct (Pos.to_uint p) eqn:E; try (now elim Hnil);
    first [rewrite Hpos | rewrite Hneg]; rewrite Hp; reflexivity.
Qed.

(** X11.  The two fmtp tests read the payload through [parseInt], so a
    payload that arrives as the decimal string of a number is treated
    exactly as that number; the two rtp tests compare with [===] and
    [includes], so they reject every payload that arrives as a string,
    whatever it spells. *)
Theorem fmtp_tests_read_numerals (n : Z) (config : JsVal) (s : string)
    (codec rate encoding : JsVal) :
  fmtp_allowed (mkFmtp (JStr (Number_toString n)) config)
  = fmtp_allowed (mkFmtp (JNum n) config) /\
  fmtp_is_101 (mkFmtp (JStr (Number_toString n)) config)
  = fmtp_is_101 (mkFmtp (JNum n) config) /\
  rtp_allowed (mkRtp (JStr s) codec rate encoding) = false /\
  rtp_is_101 (mkRtp (JStr s) codec rate encoding) = false.
Proof.
  unfold fmtp_allowed, fmtp_is_101. cbn [fmtp_payload parseInt].
  rewrite parseInt_Number_toString. now repeat split.
Qed.
